(** * lan-chat: the chat relay of [server.js]

    A shallow embedding of the Socket.IO chat server in [src/server.js]:
    the room registry ([rooms]), the per-connection onboarding state
    machine ([handleResponse], [createRoom], [joinRoom]), the
    [chat_message], [quit] and [disconnect] listeners and the lookup
    [findRoomForSocket].

    Strings are [String.string]; one [ascii] stands for one code unit
    below 256.  Logging ([logger.info], [console.log]) has no effect on
    the registry, the sessions or the events sent, and is left out, and
    so are the static file routes, [getServerIp] and the shutdown on
    [SIGINT].

    Socket.IO itself is not part of [server.js].  What the handlers use
    of it is modelled in the world: which sockets are connected, the
    Socket.IO rooms each has joined (a socket starts in the room named by
    its own id, [socket.join] adds one, a disconnect leaves them all
    before the [disconnect] listener runs), and the fact that a socket on
    which [socket.disconnect(true)] was called receives no further
    event. *)

From Stdlib Require Import String Ascii List Bool Arith DecimalString DecimalNat.
Import ListNotations.
Local Open Scope string_scope.
Local Open Scope list_scope.

(** ** JavaScript values used as conditions *)

(** [!data], [if (username)], [if (roomId)], [if (room.passkey)]: a string
    is truthy iff it is not empty; [undefined] and [null] are falsy. *)
Definition truthy_str (s : string) : bool := negb (s =? EmptyString)%string.

Definition truthy (v : option string) : bool :=
  match v with
  | Some s => truthy_str s
  | None => false
  end.

(** [String.prototype.trim] on code units below 256: TAB, LF, VT, FF, CR,
    SPACE and NBSP are removed from both ends. *)
Definition is_white_space (c : ascii) : bool :=
  let n := nat_of_ascii c in
  ((9 <=? n)%nat && (n <=? 13)%nat) || (n =? 32)%nat || (n =? 160)%nat.

Fixpoint trimStart (s : string) : string :=
  match s with
  | EmptyString => EmptyString
  | String c s' => if is_white_space c then trimStart s' else s
  end.

Fixpoint trimEnd (s : string) : string :=
  match s with
  | EmptyString => EmptyString
  | String c s' =>
      match trimEnd s' with
      | EmptyString => if is_white_space c then EmptyString else String c EmptyString
      | t => String c t
      end
  end.

Definition trim (s : string) : string := trimEnd (trimStart s).

(** ** [Map]: keys in insertion order *)

Module JsMap.
Section Ops.
Context {V : Type}.

Definition t := list (string * V).

Fixpoint get (k : string) (m : t) : option V :=
  match m with
  | [] => None
  | (k', v) :: m' => if (k' =? k)%string then Some v else get k m'
  end.

Definition has (k : string) (m : t) : bool :=
  match get k m with
  | Some _ => true
  | None => false
  end.

(** [set] keeps the position of a key that is already present and
    appends a new key at the end. *)
Fixpoint set (k : string) (v : V) (m : t) : t :=
  match m with
  | [] => [(k, v)]
  | (k', v') :: m' =>
      if (k' =? k)%string then (k, v) :: m' else (k', v') :: set k v m'
  end.

Fixpoint delete (k : string) (m : t) : t :=
  match m with
  | [] => []
  | (k', v') :: m' =>
      if (k' =? k)%string then delete k m' else (k', v') :: delete k m'
  end.

Definition size (m : t) : nat := length m.

Definition keys (m : t) : list string := map fst m.
End Ops.
Arguments t : clear implicits.
End JsMap.

(** ** Data model *)

(** The object held in [socket.state]: [{ step, roomId }]; [roomId] is
    [undefined] until [connect_room] or one of the constructors sets it. *)
Record SessionState := mkState {
  step : string;
  roomId : option string
}.

(** What the server keeps per connected socket: [socket.state] (it can be
    [undefined]), the property [socket.roomId], the Socket.IO rooms the
    socket has joined ([socket.rooms], which starts with the socket's own
    id), and whether [socket.disconnect(true)] has been called on it. *)
Record Socket := mkSocket {
  state : option SessionState;
  sock_roomId : option string;
  sio_rooms : list string;
  closing : bool
}.

(** A registry entry [{ passkey, clients }]; [passkey] is [null] for an
    open room, [clients] maps socket ids to usernames. *)
Record Room := mkRoom {
  passkey : option string;
  clients : JsMap.t string
}.

Record World := mkWorld {
  rooms : JsMap.t Room;
  sockets : JsMap.t Socket;
  uuid_calls : nat
}.

(** Events the server sends.  [SocketEmit sid ev msg] is
    [socket.emit(ev, msg)] on socket [sid]; [RoomEmit r to ev msg] is
    [io.to(r).emit(ev, msg)], and [to] lists the sockets that are in
    Socket.IO room [r] when it is called. *)
Inductive Effect :=
| SocketEmit (sid ev msg : string)
| RoomEmit (room : string) (to : list string) (ev msg : string).

Definition deliveries (e : Effect) : list (string * string * string) :=
  match e with
  | SocketEmit sid ev msg => [(sid, ev, msg)]
  | RoomEmit _ to ev msg => map (fun sid => (sid, ev, msg)) to
  end.

Definition all_deliveries (out : list Effect) : list (string * string * string) :=
  flat_map deliveries out.

(** Inbound events, each with the id of the socket it arrives on. *)
Inductive Event :=
| Connection (sid : string)
| Response (sid data : string)
| ChatMessage (sid data : string)
| Quit (sid : string)
| Disconnect (sid : string).

(** ** Handlers as state transformers that log what they send *)

Definition M (A : Type) : Type := World -> A * World * list Effect.

Definition ret {A} (a : A) : M A := fun w => (a, w, []).

Definition bind {A B} (m : M A) (f : A -> M B) : M B :=
  fun w =>
    let '(a, w1, o1) := m w in
    let '(b, w2, o2) := f a w1 in
    (b, w2, o1 ++ o2).

Declare Scope handler_scope.
Delimit Scope handler_scope with handler.
Notation "x <- m ;; k" := (bind m (fun x => k))
  (at level 61, m at next level, right associativity) : handler_scope.
Notation "m ;; k" := (bind m (fun _ => k))
  (at level 61, right associativity) : handler_scope.
Local Open Scope handler_scope.

Definition get_world : M World := fun w => (w, w, []).
Definition put_rooms (r : JsMap.t Room) : M unit :=
  fun w => (tt, mkWorld r (sockets w) (uuid_calls w), []).

Definition upd_socket (sid : string) (f : Socket -> Socket) : M unit :=
  fun w =>
    match JsMap.get sid (sockets w) with
    | Some sk => (tt, mkWorld (rooms w) (JsMap.set sid (f sk) (sockets w)) (uuid_calls w), [])
    | None => (tt, w, [])
    end.

(** [socket.state = v] *)
Definition set_socket_state (sid : string) (v : option SessionState) : M unit :=
  upd_socket sid (fun sk => mkSocket v (sock_roomId sk) (sio_rooms sk) (closing sk)).

(** [socket.roomId = v] *)
Definition set_socket_roomId (sid : string) (v : option string) : M unit :=
  upd_socket sid (fun sk => mkSocket (state sk) v (sio_rooms sk) (closing sk)).

(** [socket.join(r)] *)
Definition socket_join (sid r : string) : M unit :=
  upd_socket sid (fun sk =>
    mkSocket (state sk) (sock_roomId sk)
             (if existsb (String.eqb r) (sio_rooms sk) then sio_rooms sk
              else sio_rooms sk ++ [r])
             (closing sk)).

(** [socket.disconnect(true)]: the connection starts closing; its
    [disconnect] listener runs when the transport reports the close. *)
Definition socket_disconnect (sid : string) : M unit :=
  upd_socket sid (fun sk => mkSocket (state sk) (sock_roomId sk) (sio_rooms sk) true).

(** [socket.emit(ev, msg)] *)
Definition socket_emit (sid ev msg : string) : M unit :=
  fun w => (tt, w, [SocketEmit sid ev msg]).

(** The sockets in Socket.IO room [r]. *)
Definition recipients (r : string) (w : World) : list string :=
  map fst (filter (fun p => existsb (String.eqb r) (sio_rooms (snd p))) (sockets w)).

(** [io.to(r).emit(ev, msg)] *)
Definition io_to_emit (r ev msg : string) : M unit :=
  fun w => (tt, w, [RoomEmit r (recipients r w) ev msg]).

(** ** Prompts *)

Definition prompt_choice := "Enter option (1 for host, 2 for connect): ".
Definition prompt_host_type := "Make room [1] open or [2] private: ".
Definition prompt_host_passkey := "Set a passkey: ".
Definition prompt_connect_room := "Enter room ID: ".
Definition prompt_connect_passkey := "Enter passkey: ".
Definition prompt_username := "Enter your username: ".

Definition newline : string := String (ascii_of_nat 10) EmptyString.

(** ** The server *)

Section Server.

(** [uuidv4()]: the [n]-th call (counted from 0) returns [uuidv4 n]. *)
Variable uuidv4 : nat -> string.

Definition next_uuid : M string :=
  fun w => (uuidv4 (uuid_calls w), mkWorld (rooms w) (sockets w) (S (uuid_calls w)), []).

(** The object [createRoom] returns: [{ step: "username", roomId }]. *)
Record CreateRoomResult := mkCreateRoomResult {
  res_step : string;
  res_roomId : string
}.

(** [res.state]: the returned object has no property [state]. *)
Definition res_state (res : CreateRoomResult) : option SessionState := None.

Definition createRoom (sid : string) (pk : option string) : M CreateRoomResult :=
  r <- next_uuid ;;
  w <- get_world ;;
  put_rooms (JsMap.set r (mkRoom pk []) (rooms w)) ;;
  set_socket_state sid (Some (mkState "username" (Some r))) ;;
  socket_emit sid "message"
    ("Room created with ID: " ++ r ++ newline ++ "Share this ID with others to join"
       ++ (if truthy pk then " (passkey required)" else EmptyString) ++ ".")%string ;;
  ret (mkCreateRoomResult "username" r).

(** [rooms.get(roomId)] with [roomId] possibly [undefined]. *)
Definition rooms_get (r : option string) (w : World) : option Room :=
  match r with
  | Some r => JsMap.get r (rooms w)
  | None => None
  end.

Definition joinRoom (sid : string) (r : option string) (username : string) : M unit :=
  w <- get_world ;;
  match r, rooms_get r w with
  | Some r, Some room =>
      put_rooms (JsMap.set r (mkRoom (passkey room) (JsMap.set sid username (clients room)))
                           (rooms w)) ;;
      socket_join sid r ;;
      set_socket_state sid (Some (mkState "chat" (Some r))) ;;
      io_to_emit r "message" ("*** " ++ username ++ " joined the chat ***")%string ;;
      socket_emit sid "message" "Connection successful. Welcome to the chat!"
  | _, _ =>
      socket_emit sid "error" "Room no longer exists." ;;
      set_socket_state sid (Some (mkState "choice" None)) ;;
      socket_emit sid "prompt" prompt_choice
  end.

(** [!room || data !== room.passkey]: a string is never [===] to [null]. *)
Definition passkey_mismatch (room : option Room) (data : string) : bool :=
  match room with
  | None => true
  | Some room =>
      match passkey room with
      | Some pk => negb (data =? pk)%string
      | None => true
      end
  end.

Definition set_step (st : SessionState) (s : string) : SessionState :=
  mkState s (roomId st).

(** [handleResponse(socket, data)].  The local [state] is the object
    [socket.state] (or a new [{ step: "choice" }]); each branch yields that
    object as it has been mutated, and the last statement stores it back
    into [socket.state]. *)
Definition handleResponse (sid data : string) : M unit :=
  w0 <- get_world ;;
  let state0 :=
    match JsMap.get sid (sockets w0) with
    | Some sk =>
        match state sk with
        | Some st => st
        | None => mkState "choice" None
        end
    | None => mkState "choice" None
    end in
  state1 <-
    (if (step state0 =? "choice")%string then
       if (data =? "1")%string then
         socket_emit sid "prompt" prompt_host_type ;;
         ret (set_step state0 "host_type")
       else if (data =? "2")%string then
         socket_emit sid "prompt" prompt_connect_room ;;
         ret (set_step state0 "connect_room")
       else
         socket_emit sid "error" "Invalid option. Choose 1 or 2." ;;
         socket_emit sid "prompt" prompt_choice ;;
         ret state0
     else if (step state0 =? "host_type")%string then
       if (data =? "1")%string then
         res <- createRoom sid None ;;
         set_socket_state sid (res_state res) ;;
         set_socket_roomId sid (Some (res_roomId res)) ;;
         socket_emit sid "prompt" prompt_username ;;
         ret state0
       else if (data =? "2")%string then
         socket_emit sid "prompt" prompt_host_passkey ;;
         ret (set_step state0 "host_passkey")
       else
         socket_emit sid "error" "Invalid option. Choose 1 or 2." ;;
         socket_emit sid "prompt" prompt_host_type ;;
         ret state0
     else if (step state0 =? "host_passkey")%string then
       if negb (truthy_str data) then
         socket_emit sid "error" "Passkey cannot be empty." ;;
         socket_emit sid "prompt" prompt_host_passkey ;;
         ret state0
       else
         res <- createRoom sid (Some data) ;;
         set_socket_state sid (res_state res) ;;
         set_socket_roomId sid (Some (res_roomId res)) ;;
         socket_emit sid "prompt" prompt_username ;;
         ret state0
     else if (step state0 =? "connect_room")%string then
       w <- get_world ;;
       (* [rooms.has(data)], then [rooms.get(data)] *)
       match JsMap.get data (rooms w) with
       | None =>
           socket_emit sid "error" "Room does not exist." ;;
           socket_emit sid "prompt" prompt_connect_room ;;
           ret state0
       | Some room =>
           let state' := mkState (step state0) (Some data) in
           if truthy (passkey room) then
             socket_emit sid "prompt" prompt_connect_passkey ;;
             ret (set_step state' "connect_passkey")
           else
             socket_emit sid "prompt" prompt_username ;;
             ret (set_step state' "username")
       end
     else if (step state0 =? "connect_passkey")%string then
       w <- get_world ;;
       if passkey_mismatch (rooms_get (roomId state0) w) data then
         socket_emit sid "error" "Invalid passkey." ;;
         socket_emit sid "prompt" prompt_connect_passkey ;;
         ret state0
       else
         socket_emit sid "prompt" prompt_username ;;
         ret (set_step state0 "username")
     else if (step state0 =? "username")%string then
       if negb (truthy_str data) then
         socket_emit sid "error" "Username cannot be empty." ;;
         socket_emit sid "prompt" prompt_username ;;
         ret state0
       else
         joinRoom sid (roomId state0) data ;;
         socket_emit sid "message" "type and hit enter to send a message" ;;
         ret (set_step state0 "chat")
     else
       socket_emit sid "error" "Invalid state. Please reconnect." ;;
       set_socket_state sid (Some (mkState "choice" None)) ;;
       socket_emit sid "prompt" prompt_choice ;;
       ret state0) ;;
  set_socket_state sid (Some state1).

(** [findRoomForSocket(socketId)]: the first room, in insertion order,
    whose [clients] has the socket. *)
Fixpoint findRoomForSocket (rs : JsMap.t Room) (sid : string) : option string :=
  match rs with
  | [] => None
  | (r, room) :: rs' =>
      if JsMap.has sid (clients room) then Some r else findRoomForSocket rs' sid
  end.

(** The [chat_message] listener. *)
Definition on_chat_message (sid data : string) : M unit :=
  w <- get_world ;;
  match JsMap.get sid (sockets w) with
  | Some sk =>
      match state sk with
      | Some st =>
          if (step st =? "chat")%string && truthy_str data then
            let username :=
              match rooms_get (roomId st) w with
              | Some room => JsMap.get sid (clients room)
              | None => None
              end in
            match username, roomId st with
            | Some u, Some r =>
                if truthy_str u && truthy_str r then
                  io_to_emit r "message" ("[" ++ u ++ "] " ++ data)%string
                else
                  socket_emit sid "error" "Not in a valid room or username not set."
            | _, _ =>
                socket_emit sid "error" "Not in a valid room or username not set."
            end
          else ret tt
      | None => ret tt
      end
  | None => ret tt
  end.

(** The [quit] listener.  [room.clients.delete] changes the room object
    that the registry holds, so the registry entry is rewritten in place. *)
Definition on_quit (sid : string) : M unit :=
  w <- get_world ;;
  match findRoomForSocket (rooms w) sid with
  | Some r =>
      if truthy_str r then
        match JsMap.get r (rooms w) with
        | Some room =>
            match JsMap.get sid (clients room) with
            | Some username =>
                if truthy_str username then
                  put_rooms (JsMap.set r
                               (mkRoom (passkey room) (JsMap.delete sid (clients room)))
                               (rooms w)) ;;
                  io_to_emit r "message" ("*** " ++ username ++ " left the chat ***")%string
                else ret tt
            | None => ret tt
            end
        | None => ret tt
        end
      else ret tt
  | None => ret tt
  end ;;
  set_socket_state sid (Some (mkState "choice" None)) ;;
  socket_disconnect sid.

(** The [disconnect] listener. *)
Definition on_disconnect (sid : string) : M unit :=
  w <- get_world ;;
  match findRoomForSocket (rooms w) sid with
  | Some r =>
      if truthy_str r then
        match JsMap.get r (rooms w) with
        | Some room =>
            match JsMap.get sid (clients room) with
            | Some username =>
                if truthy_str username then
                  let clients' := JsMap.delete sid (clients room) in
                  put_rooms (JsMap.set r (mkRoom (passkey room) clients') (rooms w)) ;;
                  io_to_emit r "message" ("*** " ++ username ++ " left the chat ***")%string ;;
                  if (JsMap.size clients' =? 0)%nat then
                    w' <- get_world ;;
                    put_rooms (JsMap.delete r (rooms w'))
                  else ret tt
                else ret tt
            | None => ret tt
            end
        | None => ret tt
        end
      else ret tt
  | None => ret tt
  end.

(** The ["connection"] listener on a new socket. *)
Definition on_connection (sid : string) : M unit :=
  fun w =>
    (tt,
     mkWorld (rooms w)
             (JsMap.set sid (mkSocket (Some (mkState "choice" None)) None [sid] false)
                        (sockets w))
             (uuid_calls w),
     [SocketEmit sid "prompt" prompt_choice]).

(** Socket.IO, when the connection of [sid] is closed: the socket leaves
    its rooms and the set of connected sockets, then its [disconnect]
    listener runs. *)
Definition drop_socket (sid : string) : M unit :=
  fun w => (tt, mkWorld (rooms w) (JsMap.delete sid (sockets w)) (uuid_calls w), []).

(** Dispatch of one inbound event.  Socket ids are unique among the live
    connections; a socket that is closing or gone receives nothing. *)
Definition dispatch (e : Event) : M unit :=
  w <- get_world ;;
  match e with
  | Connection sid =>
      if JsMap.has sid (sockets w) then ret tt else on_connection sid
  | Response sid data =>
      match JsMap.get sid (sockets w) with
      | Some sk => if closing sk then ret tt else handleResponse sid (trim data)
      | None => ret tt
      end
  | ChatMessage sid data =>
      match JsMap.get sid (sockets w) with
      | Some sk => if closing sk then ret tt else on_chat_message sid data
      | None => ret tt
      end
  | Quit sid =>
      match JsMap.get sid (sockets w) with
      | Some sk => if closing sk then ret tt else on_quit sid
      | None => ret tt
      end
  | Disconnect sid =>
      if JsMap.has sid (sockets w) then drop_socket sid ;; on_disconnect sid
      else ret tt
  end.

Definition handle (w : World) (e : Event) : World * list Effect :=
  let '(_, w', out) := dispatch e w in (w', out).

Fixpoint run (w : World) (es : list Event) : World * list Effect :=
  match es with
  | [] => (w, [])
  | e :: es' =>
      let '(w1, o1) := handle w e in
      let '(w2, o2) := run w1 es' in
      (w2, o1 ++ o2)
  end.

Definition init_world : World := mkWorld [] [] 0.

(** The worlds the server can be in between two events. *)
Inductive reachable : World -> Prop :=
| reach_init : reachable init_world
| reach_step w e : reachable w -> reachable (fst (handle w e)).

End Server.

(** ** Vocabulary of the statements *)

(** The local [state] of [handleResponse]: [socket.state || { step: "choice" }]. *)
Definition cur_state (sk : Socket) : SessionState :=
  match state sk with
  | Some st => st
  | None => mkState "choice" None
  end.

(** [socket.state.step], when the socket is connected and has a state. *)
Definition socket_step (w : World) (sid : string) : option string :=
  match JsMap.get sid (sockets w) with
  | Some sk =>
      match state sk with
      | Some st => Some (step st)
      | None => None
      end
  | None => None
  end.

(** The onboarding stages. *)
Definition stages : list string :=
  ["choice"; "host_type"; "host_passkey"; "connect_room"; "connect_passkey";
   "username"; "chat"].

Definition valid_step (s : string) : bool := existsb (String.eqb s) stages.

Definition chat_state (r : string) : SessionState := mkState "chat" (Some r).

(** The three ways [handleResponse] changes the world for a socket [sid]
    whose record is [sk]: it stores a state object back (its own, or one
    with a new step when it was not in chat); it creates a room and stores
    the state it started with; or it makes the socket a member of the room
    [r] of its state. *)
Inductive resp_result (uuidv4 : nat -> string) (sid data : string) (w : World) (sk : Socket)
  : World -> Prop :=
| rr_state st' :
    st' = cur_state sk \/ (step (cur_state sk) <> "chat" /\ valid_step (step st') = true) ->
    resp_result uuidv4 sid data w sk
      (mkWorld (rooms w)
         (JsMap.set sid (mkSocket (Some st') (sock_roomId sk) (sio_rooms sk) (closing sk))
                    (sockets w))
         (uuid_calls w))
| rr_create pk :
    step (cur_state sk) <> "chat" ->
    resp_result uuidv4 sid data w sk
      (mkWorld (JsMap.set (uuidv4 (uuid_calls w)) (mkRoom pk []) (rooms w))
         (JsMap.set sid (mkSocket (Some (cur_state sk)) (Some (uuidv4 (uuid_calls w)))
                                  (sio_rooms sk) (closing sk)) (sockets w))
         (S (uuid_calls w)))
| rr_join r room joined' :
    step (cur_state sk) = "username" ->
    roomId (cur_state sk) = Some r ->
    JsMap.get r (rooms w) = Some room ->
    truthy_str data = true ->
    In r joined' ->
    resp_result uuidv4 sid data w sk
      (mkWorld (JsMap.set r (mkRoom (passkey room) (JsMap.set sid data (clients room))) (rooms w))
         (JsMap.set sid (mkSocket (Some (chat_state r)) (sock_roomId sk) joined' (closing sk))
                    (sockets w))
         (uuid_calls w)).

(** The world and the events sent, without the handler's return value. *)
Definition out_of {A} (r : A * World * list Effect) : World * list Effect :=
  (snd (fst r), snd r).

(** An event on a socket that is closing or not connected is dropped; so
    is a connection under an id that is still live. *)
Definition ignored (w : World) (e : Event) : Prop :=
  match e with
  | Connection sid => JsMap.get sid (sockets w) <> None
  | Response sid _ | ChatMessage sid _ | Quit sid =>
      match JsMap.get sid (sockets w) with
      | Some sk => closing sk = true
      | None => True
      end
  | Disconnect sid => JsMap.get sid (sockets w) = None
  end.

Definition event_socket (e : Event) : string :=
  match e with
  | Connection sid | Response sid _ | ChatMessage sid _ | Quit sid | Disconnect sid => sid
  end.

(** Every connected socket has a state whose step is a stage. *)
Definition steps_ok (w : World) : Prop :=
  forall c sk, JsMap.get c (sockets w) = Some sk ->
    exists st, state sk = Some st /\ valid_step (step st) = true.

(** What holds of a member [c], named [u], of room [r]: the name is not
    empty, and [c] is a live socket in chat on [r] that has joined the
    Socket.IO room [r]. *)
Definition member_ok (w : World) (r c u : string) : Prop :=
  truthy_str u = true /\
  exists sk, JsMap.get c (sockets w) = Some sk /\ closing sk = false /\
             state sk = Some (chat_state r) /\ In r (sio_rooms sk).

Record Inv (w : World) : Prop := mkInv {
  inv_nodup : NoDup (JsMap.keys (rooms w));
  inv_room_ids : forall r room, JsMap.get r (rooms w) = Some room -> truthy_str r = true;
  inv_members : forall r room c u,
      JsMap.get r (rooms w) = Some room -> JsMap.get c (clients room) = Some u ->
      member_ok w r c u
}.

(** [sid] is in the [clients] of no room. *)
Definition not_member (rs : JsMap.t Room) (sid : string) : Prop :=
  forall r room, JsMap.get r rs = Some room -> JsMap.get sid (clients room) = None.

Definition left_notice (u : string) : string := ("*** " ++ u ++ " left the chat ***")%string.

(** The socket record after the [quit] listener. *)
Definition quit_socket (sk : Socket) : Socket :=
  mkSocket (Some (mkState "choice" None)) (sock_roomId sk) (sio_rooms sk) true.

(** [room] after [room.clients.delete(sid)]. *)
Definition without (sid : string) (room : Room) : Room :=
  mkRoom (passkey room) (JsMap.delete sid (clients room)).

Definition is_closing (w : World) (sid : string) : Prop :=
  exists sk, JsMap.get sid (sockets w) = Some sk /\ closing sk = true.

(** A live session in chat that is a member of no room. *)
Definition stale (w : World) (sid : string) : Prop :=
  (exists sk st, JsMap.get sid (sockets w) = Some sk /\ closing sk = false /\
                 state sk = Some st /\ step st = "chat") /\
  not_member (rooms w) sid.

(** The room recorded in the state exists and its passkey is the text. *)
Definition passkey_matches (w : World) (st : SessionState) (data : string) : Prop :=
  exists room, rooms_get (roomId st) w = Some room /\ passkey room = Some data.

(** The inputs [handleResponse] rejects in the six onboarding steps, with
    the error it sends and the prompt of the step. *)
Inductive rejected (w : World) (st : SessionState) (data : string) : string -> string -> Prop :=
| rej_choice :
    step st = "choice" -> data <> "1" -> data <> "2" ->
    rejected w st data "Invalid option. Choose 1 or 2." prompt_choice
| rej_host_type :
    step st = "host_type" -> data <> "1" -> data <> "2" ->
    rejected w st data "Invalid option. Choose 1 or 2." prompt_host_type
| rej_host_passkey :
    step st = "host_passkey" -> data = EmptyString ->
    rejected w st data "Passkey cannot be empty." prompt_host_passkey
| rej_connect_room :
    step st = "connect_room" -> JsMap.get data (rooms w) = None ->
    rejected w st data "Room does not exist." prompt_connect_room
| rej_connect_passkey :
    step st = "connect_passkey" -> ~ passkey_matches w st data ->
    rejected w st data "Invalid passkey." prompt_connect_passkey
| rej_username :
    step st = "username" -> data = EmptyString ->
    rejected w st data "Username cannot be empty." prompt_username.

(** ** Sample runs *)

Fixpoint zeros (k : nat) : string :=
  match k with
  | O => EmptyString
  | S k' => String "0" (zeros k')
  end.

(** A generator of version 4 UUIDs: the call count in the last group. *)
Definition sample_uuid (n : nat) : string :=
  let d := NilEmpty.string_of_uint (Nat.to_uint n) in
  ("00000000-0000-4000-8000-" ++ zeros (12 - String.length d) ++ d)%string.

Definition world_after (es : list Event) : World := fst (run sample_uuid init_world es).

(** [s1] hosts an open room. *)
Definition host_open_trace : list Event :=
  [Connection "s1"; Response "s1" "1"; Response "s1" "1"].

(** [s1] hosts a room with passkey [secret]. *)
Definition host_private_trace : list Event :=
  [Connection "s1"; Response "s1" "1"; Response "s1" "2"; Response "s1" "secret"].

(** [s2] connects to the first room and gets as far as the next prompt. *)
Definition s2_enters_room_id : list Event :=
  [Connection "s2"; Response "s2" "2"; Response "s2" (sample_uuid 0)].

Definition bob_joins : list Event := s2_enters_room_id ++ [Response "s2" "bob"].

Definition carol_joins : list Event :=
  [Connection "s3"; Response "s3" "2"; Response "s3" (sample_uuid 0); Response "s3" "carol"].

(** [s1] has an open room and no session beyond [host_type]. *)
Definition hosted_world : World := world_after host_open_trace.

(** [s1] has a private room; [s2] is asked for its passkey. *)
Definition passkey_world : World := world_after (host_private_trace ++ s2_enters_room_id).

(** bob ([s2]) is the only member of the open room. *)
Definition bob_world : World := world_after (host_open_trace ++ bob_joins).

(** bob ([s2]) and carol ([s3]) are in the open room. *)
Definition bob_carol_world : World := world_after (host_open_trace ++ bob_joins ++ carol_joins).

(** [s2] is asked for a username for a room that carol has joined and
    left by disconnecting, so that the room is gone. *)
Definition room_gone_world : World :=
  world_after (host_open_trace ++ s2_enters_room_id ++ carol_joins ++ [Disconnect "s3"]).

(** ** The rest of [server.js] *)

(** One entry of an array of [os.networkInterfaces()]. *)
Record NetworkInterface := mkNetworkInterface {
  family : string;
  internal : bool;
  address : string
}.

(** The inner loop of [getServerIp]: the address of the first interface
    that is IPv4 and not internal. *)
Fixpoint first_external (ifaces : list NetworkInterface) : option string :=
  match ifaces with
  | [] => None
  | iface :: rest =>
      if (family iface =? "IPv4")%string && negb (internal iface)
      then Some (address iface)
      else first_external rest
  end.

(** [interfaces[name]] *)
Definition ifaces_of (interfaces : JsMap.t (list NetworkInterface)) (name : string)
  : list NetworkInterface :=
  match JsMap.get name interfaces with
  | Some l => l
  | None => []
  end.

(** The outer loop of [getServerIp], over [Object.keys(interfaces)]. *)
Fixpoint scan_interfaces (interfaces : JsMap.t (list NetworkInterface)) (names : list string)
  : option string :=
  match names with
  | [] => None
  | name :: rest =>
      match first_external (ifaces_of interfaces name) with
      | Some a => Some a
      | None => scan_interfaces interfaces rest
      end
  end.

(** [getServerIp()], with the value of [os.networkInterfaces()] as its
    argument: an object from interface names (none of them an array
    index, so that [Object.keys] lists them in insertion order) to arrays
    of interfaces. *)
Definition getServerIp (interfaces : JsMap.t (list NetworkInterface)) : string :=
  match scan_interfaces interfaces (JsMap.keys interfaces) with
  | Some a => a
  | None => "localhost"
  end.

Definition shutdown_notice : string := "*** Server is shutting down ***".

(** The loop of the [SIGINT] listener over [rooms.keys()]. *)
Fixpoint announce_shutdown (ids : list string) : M unit :=
  match ids with
  | [] => ret tt
  | r :: rest => io_to_emit r "message" shutdown_notice ;; announce_shutdown rest
  end.

(** The [SIGINT] listener, up to [io.close]: the notice goes to every room
    of the registry.  (Then the server closes and the process exits.) *)
Definition on_sigint : M unit :=
  w <- get_world ;;
  announce_shutdown (JsMap.keys (rooms w)).

(** ** More vocabulary *)

(** All the interfaces, in the order in which [getServerIp] looks at them. *)
Definition all_ifaces (interfaces : JsMap.t (list NetworkInterface)) : list NetworkInterface :=
  flat_map (ifaces_of interfaces) (JsMap.keys interfaces).

Definition external_ipv4 (iface : NetworkInterface) : Prop :=
  family iface = "IPv4" /\ internal iface = false.

(** [sid] is a member of room [r] under the name [u]. *)
Definition member_of (w : World) (r sid u : string) : Prop :=
  exists room, JsMap.get r (rooms w) = Some room /\ JsMap.get sid (clients room) = Some u.

(** The steps of a session that has chosen to host. *)
Definition hosting (s : string) : Prop := s = "host_type" \/ s = "host_passkey".

(** What one run of [handleResponse] does to the world, case by case, for
    a socket [sid] whose record is [sk] and whose state object is
    [cur_state sk]. *)
Inductive resp_detail (uuidv4 : nat -> string) (sid data : string) (w : World) (sk : Socket)
  : World -> Prop :=
| rd_keep :
    (* a rejected input, or a response in chat *)
    resp_detail uuidv4 sid data w sk
      (mkWorld (rooms w)
         (JsMap.set sid (mkSocket (Some (cur_state sk)) (sock_roomId sk) (sio_rooms sk)
                                  (closing sk)) (sockets w))
         (uuid_calls w))
| rd_menu s' :
    (step (cur_state sk) = "choice" /\ data = "1" /\ s' = "host_type") \/
    (step (cur_state sk) = "choice" /\ data = "2" /\ s' = "connect_room") \/
    (step (cur_state sk) = "host_type" /\ data = "2" /\ s' = "host_passkey") ->
    resp_detail uuidv4 sid data w sk
      (mkWorld (rooms w)
         (JsMap.set sid (mkSocket (Some (set_step (cur_state sk) s')) (sock_roomId sk)
                                  (sio_rooms sk) (closing sk)) (sockets w))
         (uuid_calls w))
| rd_create pk :
    (step (cur_state sk) = "host_type" /\ data = "1" /\ pk = None) \/
    (step (cur_state sk) = "host_passkey" /\ data <> EmptyString /\ pk = Some data) ->
    resp_detail uuidv4 sid data w sk
      (mkWorld (JsMap.set (uuidv4 (uuid_calls w)) (mkRoom pk []) (rooms w))
         (JsMap.set sid (mkSocket (Some (cur_state sk)) (Some (uuidv4 (uuid_calls w)))
                                  (sio_rooms sk) (closing sk)) (sockets w))
         (S (uuid_calls w)))
| rd_room_id room :
    step (cur_state sk) = "connect_room" ->
    JsMap.get data (rooms w) = Some room ->
    resp_detail uuidv4 sid data w sk
      (mkWorld (rooms w)
         (JsMap.set sid
            (mkSocket (Some (mkState (if truthy (passkey room) then "connect_passkey"
                                      else "username") (Some data)))
                      (sock_roomId sk) (sio_rooms sk) (closing sk)) (sockets w))
         (uuid_calls w))
| rd_passkey r room :
    step (cur_state sk) = "connect_passkey" ->
    roomId (cur_state sk) = Some r ->
    JsMap.get r (rooms w) = Some room ->
    passkey room = Some data ->
    resp_detail uuidv4 sid data w sk
      (mkWorld (rooms w)
         (JsMap.set sid (mkSocket (Some (mkState "username" (Some r))) (sock_roomId sk)
                                  (sio_rooms sk) (closing sk)) (sockets w))
         (uuid_calls w))
| rd_join r room :
    step (cur_state sk) = "username" ->
    roomId (cur_state sk) = Some r ->
    JsMap.get r (rooms w) = Some room ->
    data <> EmptyString ->
    resp_detail uuidv4 sid data w sk
      (mkWorld (JsMap.set r (mkRoom (passkey room) (JsMap.set sid data (clients room))) (rooms w))
         (JsMap.set sid
            (mkSocket (Some (chat_state r)) (sock_roomId sk)
                      (if existsb (String.eqb r) (sio_rooms sk) then sio_rooms sk
                       else sio_rooms sk ++ [r])
                      (closing sk)) (sockets w))
         (uuid_calls w))
| rd_join_missing :
    step (cur_state sk) = "username" ->
    rooms_get (roomId (cur_state sk)) w = None ->
    data <> EmptyString ->
    resp_detail uuidv4 sid data w sk
      (mkWorld (rooms w)
         (JsMap.set sid (mkSocket (Some (set_step (cur_state sk) "chat")) (sock_roomId sk)
                                  (sio_rooms sk) (closing sk)) (sockets w))
         (uuid_calls w)).

(** What one inbound event does to the registry and to the count of
    [uuidv4()] calls: nothing; a room created for a hosting session; a
    member added by a session at [username]; a member removed by [quit] or
    [disconnect]; a room deleted by the [disconnect] of its last member. *)
Inductive registry_change (uuidv4 : nat -> string) (w : World)
  : Event -> JsMap.t Room -> nat -> Prop :=
| rc_same e : registry_change uuidv4 w e (rooms w) (uuid_calls w)
| rc_create sid data pk :
    (socket_step w sid = Some "host_type" /\ trim data = "1" /\ pk = None) \/
    (socket_step w sid = Some "host_passkey" /\ trim data <> EmptyString /\
     pk = Some (trim data)) ->
    registry_change uuidv4 w (Response sid data)
      (JsMap.set (uuidv4 (uuid_calls w)) (mkRoom pk []) (rooms w)) (S (uuid_calls w))
| rc_join sid data r room :
    socket_step w sid = Some "username" ->
    JsMap.get r (rooms w) = Some room ->
    trim data <> EmptyString ->
    registry_change uuidv4 w (Response sid data)
      (JsMap.set r (mkRoom (passkey room) (JsMap.set sid (trim data) (clients room))) (rooms w))
      (uuid_calls w)
| rc_leave e sid r room :
    e = Quit sid \/ e = Disconnect sid ->
    JsMap.get r (rooms w) = Some room ->
    registry_change uuidv4 w e (JsMap.set r (without sid room) (rooms w)) (uuid_calls w)
| rc_last sid r room :
    JsMap.get r (rooms w) = Some room ->
    JsMap.delete sid (clients room) = [] ->
    registry_change uuidv4 w (Disconnect sid)
      (JsMap.delete r (JsMap.set r (without sid room) (rooms w))) (uuid_calls w).

(** No room has the empty string as its passkey. *)
Definition passkeys_ok (rs : JsMap.t Room) : Prop :=
  forall r room pk, JsMap.get r rs = Some room -> passkey room = Some pk -> pk <> EmptyString.

(** Every room id of the registry came from an earlier [uuidv4()] call. *)
Definition ids_issued (uuidv4 : nat -> string) (w : World) : Prop :=
  forall r, In r (JsMap.keys (rooms w)) -> exists k, k < uuid_calls w /\ r = uuidv4 k.

(** The session of [sid] is at one of the hosting steps. *)
Definition is_hosting (w : World) (sid : string) : Prop :=
  exists s, socket_step w sid = Some s /\ hosting s.

(** Events that do not end the connection of [sid]. *)
Definition stays_open (sid : string) (e : Event) : Prop :=
  e <> Quit sid /\ e <> Disconnect sid.

(** A payload made of white space only (or of nothing). *)
Fixpoint blank (s : string) : bool :=
  match s with
  | EmptyString => true
  | String c s' => is_white_space c && blank s'
  end.

(** What may be sent while an event of socket [sid] is handled: to a single
    socket, only to [sid] itself; to a room, only a [message]. *)
Definition private_or_message (sid : string) (eff : Effect) : Prop :=
  match eff with
  | SocketEmit to _ _ => to = sid
  | RoomEmit _ _ ev _ => ev = "message"
  end.

(** A handler that sends nothing else, from whatever world it starts. *)
Definition emits_only {A} (sid : string) (m : M A) : Prop :=
  forall w, Forall (private_or_message sid) (snd (m w)).

(** ** More sample runs *)

(** [s1] has an open room; [s2] has just connected. *)
Definition open_room_world : World := world_after (host_open_trace ++ [Connection "s2"]).

(** [s1] has a private room; [s2] has just connected. *)
Definition private_room_world : World :=
  world_after (host_private_trace ++ [Connection "s2"]).

(** [s1] has an open room; [s2] is asked for a username for it. *)
Definition username_world : World := world_after (host_open_trace ++ s2_enters_room_id).

(** bob ([s2]) is in the open room; [s3] is asked for a username for it. *)
Definition newcomer_world : World :=
  world_after (host_open_trace ++ bob_joins
               ++ [Connection "s3"; Response "s3" "2"; Response "s3" (sample_uuid 0)]).

(** The number a string of decimal digits stands for. *)
Definition decimal_value (s : string) : option nat :=
  option_map Nat.of_uint (NilEmpty.uint_of_string s).

(** * Proofs *)

Ltac step_handler :=
  unfold handleResponse, createRoom, joinRoom, next_uuid, bind, get_world, put_rooms,
    set_socket_state, set_socket_roomId, socket_join, socket_disconnect, upd_socket,
    socket_emit, io_to_emit, ret, res_state, rooms_get; cbn.

Ltac unfold_leave :=
  unfold on_quit, on_disconnect, bind, get_world, put_rooms, set_socket_state,
    socket_disconnect, upd_socket, io_to_emit, ret; cbn.

Module JsMapFacts.
Import JsMap.
Section Facts.
Context {V : Type}.
Implicit Types (m : JsMap.t V) (k : string) (v : V).

Lemma get_set_same k v m : get k (set k v m) = Some v.
Proof.
  induction m as [|[k' v'] m IH]; cbn.
  - now rewrite String.eqb_refl.
  - destruct (String.eqb_spec k' k) as [->|Hne]; cbn.
    + now rewrite String.eqb_refl.
    + destruct (String.eqb_spec k' k); [contradiction|exact IH].
Qed.

Lemma get_set_other k k' v m : k <> k' -> get k' (set k v m) = get k' m.
Proof.
  intros Hne. induction m as [|[k0 v0] m IH]; cbn.
  - destruct (String.eqb_spec k k'); [contradiction|reflexivity].
  - destruct (String.eqb_spec k0 k) as [->|Hk]; cbn.
    + destruct (String.eqb_spec k k'); [contradiction|reflexivity].
    + now rewrite IH.
Qed.

Lemma get_delete_same k m : get k (delete k m) = None.
Proof.
  induction m as [|[k0 v0] m IH]; cbn; [reflexivity|].
  destruct (String.eqb_spec k0 k) as [->|Hk]; cbn; [exact IH|].
  destruct (String.eqb_spec k0 k); [contradiction|exact IH].
Qed.

Lemma get_delete_other k k' m : k <> k' -> get k' (delete k m) = get k' m.
Proof.
  intros Hne. induction m as [|[k0 v0] m IH]; cbn; [reflexivity|].
  destruct (String.eqb_spec k0 k) as [->|Hk]; cbn.
  - destruct (String.eqb_spec k k'); [contradiction|exact IH].
  - now rewrite IH.
Qed.

Lemma has_true k m : has k m = true <-> exists v, get k m = Some v.
Proof.
  unfold has. destruct (get k m) as [v|]; split; intros H.
  - now exists v.
  - reflexivity.
  - discriminate.
  - destruct H as [v H]; discriminate.
Qed.

Lemma has_false k m : has k m = false <-> get k m = None.
Proof. unfold has. destruct (get k m); split; congruence. Qed.

Lemma get_In k v m : get k m = Some v -> In (k, v) m.
Proof.
  induction m as [|[k0 v0] m IH]; cbn; [discriminate|].
  destruct (String.eqb_spec k0 k) as [->|Hk]; intros H.
  - injection H as ->. now left.
  - right. now apply IH.
Qed.

Lemma In_keys k v m : In (k, v) m -> In k (keys m).
Proof. intros H. unfold keys. change k with (fst (k, v)). now apply in_map. Qed.

Lemma get_None_keys k m : get k m = None <-> ~ In k (keys m).
Proof.
  induction m as [|[k0 v0] m IH]; cbn.
  - tauto.
  - destruct (String.eqb_spec k0 k) as [->|Hk].
    + split; [discriminate|]. intros H. exfalso. apply H. now left.
    + rewrite IH. tauto.
Qed.

Lemma In_get k v m : NoDup (keys m) -> In (k, v) m -> get k m = Some v.
Proof.
  induction m as [|[k0 v0] m IH]; cbn; [tauto|].
  intros Hnd [Heq|Hin]; inversion Hnd as [|? ? Hnotin Hnd']; subst.
  - injection Heq as -> ->. now rewrite String.eqb_refl.
  - destruct (String.eqb_spec k0 k) as [->|Hk].
    + exfalso. apply Hnotin. eapply In_keys; eauto.
    + now apply IH.
Qed.

Lemma keys_set_In k v m : get k m <> None -> keys (set k v m) = keys m.
Proof.
  induction m as [|[k0 v0] m IH]; cbn; [congruence|].
  destruct (String.eqb_spec k0 k) as [->|Hk]; cbn; intros H.
  - reflexivity.
  - f_equal. now apply IH.
Qed.

Lemma keys_set_new k v m : get k m = None -> keys (set k v m) = keys m ++ [k].
Proof.
  induction m as [|[k0 v0] m IH]; cbn; [reflexivity|].
  destruct (String.eqb_spec k0 k) as [->|Hk]; cbn; intros H.
  - discriminate.
  - f_equal. now apply IH.
Qed.

Lemma NoDup_keys_set k v m : NoDup (keys m) -> NoDup (keys (set k v m)).
Proof.
  intros Hnd. destruct (get k m) as [v0|] eqn:Hg.
  - rewrite keys_set_In; [exact Hnd|congruence].
  - rewrite keys_set_new by exact Hg.
    apply NoDup_app; [exact Hnd|repeat constructor; intros []|].
    intros x Hx [<-|[]]. now apply get_None_keys in Hg.
Qed.

Lemma keys_delete_incl k m x : In x (keys (delete k m)) -> In x (keys m).
Proof.
  induction m as [|[k0 v0] m IH]; cbn; [tauto|].
  destruct (String.eqb_spec k0 k); cbn; tauto.
Qed.

Lemma NoDup_keys_delete k m : NoDup (keys m) -> NoDup (keys (delete k m)).
Proof.
  induction m as [|[k0 v0] m IH]; cbn; [trivial|].
  intros Hnd. inversion Hnd as [|? ? Hnotin Hnd']; subst.
  destruct (String.eqb_spec k0 k); cbn; [now apply IH|].
  constructor; [|now apply IH].
  intros Hin. apply Hnotin. eapply keys_delete_incl; eauto.
Qed.

Lemma set_set k v1 v2 m : set k v2 (set k v1 m) = set k v2 m.
Proof.
  induction m as [|[k0 v0] m IH]; cbn.
  - now rewrite String.eqb_refl.
  - destruct (String.eqb_spec k0 k) as [->|Hk]; cbn.
    + now rewrite String.eqb_refl.
    + destruct (String.eqb_spec k0 k); [contradiction|]. now rewrite IH.
Qed.

Lemma In_has k v m : In (k, v) m -> has k m = true.
Proof.
  intros H. apply has_true. destruct (get k m) as [v'|] eqn:Hg; [now exists v'|].
  apply get_None_keys in Hg. exfalso. apply Hg. eapply In_keys; eauto.
Qed.

Lemma delete_all k m :
  (forall k' v', In (k', v') m -> k' = k) -> delete k m = [].
Proof.
  induction m as [|[k0 v0] m IH]; cbn; [reflexivity|].
  intros H. rewrite (H k0 v0) by now left.
  rewrite String.eqb_refl. apply IH. intros k' v' Hin. apply (H k' v'). now right.
Qed.

Lemma delete_only k m :
  (forall k', has k' m = true -> k' = k) -> delete k m = [].
Proof.
  intros H. apply delete_all. intros k' v' Hin. apply H. eapply In_has; eauto.
Qed.
Lemma set_same k v m : get k m = Some v -> set k v m = m.
Proof.
  induction m as [|[k0 v0] m IH]; cbn; [discriminate|].
  destruct (String.eqb_spec k0 k) as [->|Hne]; intros H.
  - now injection H as ->.
  - now rewrite IH.
Qed.
End Facts.
End JsMapFacts.

Import JsMapFacts.

Ltac norm_sock H :=
  cbn; repeat (first [rewrite get_set_same | rewrite set_set | rewrite H]; cbn).

Section ServerProofs.

Variable uuidv4 : nat -> string.

(** ** What one run of [handleResponse] changes *)

Lemma handleResponse_footprint sid data w sk :
  JsMap.get sid (sockets w) = Some sk ->
  resp_result uuidv4 sid data w sk (snd (fst (handleResponse uuidv4 sid data w))).
Proof.
  intros Hsk. step_handler. rewrite Hsk. fold (cur_state sk).
  destruct (String.eqb_spec (step (cur_state sk)) "choice") as [E1|E1].
  { destruct (data =? "1"); [|destruct (data =? "2")]; cbn; rewrite ?Hsk.
    all: constructor.
    all: right; rewrite E1; split; [discriminate | reflexivity]. }
  destruct (String.eqb_spec (step (cur_state sk)) "host_type") as [E2|E2].
  { destruct (data =? "1"); [|destruct (data =? "2")]; cbn; rewrite ?Hsk; cbn.
    - norm_sock Hsk.
      apply rr_create. rewrite E2. discriminate.
    - constructor. right. rewrite E2. split; [discriminate | reflexivity].
    - constructor. now left. }
  destruct (String.eqb_spec (step (cur_state sk)) "host_passkey") as [E3|E3].
  { destruct (truthy_str data); cbn; rewrite ?Hsk; cbn.
    - norm_sock Hsk.
      apply rr_create. rewrite E3. discriminate.
    - constructor. now left. }
  destruct (String.eqb_spec (step (cur_state sk)) "connect_room") as [E4|E4].
  { destruct (JsMap.get data (rooms w)) as [room|]; [destruct (truthy (passkey room))|];
      cbn; rewrite ?Hsk; cbn.
    - constructor. right. rewrite E4. split; [discriminate | reflexivity].
    - constructor. right. rewrite E4. split; [discriminate | reflexivity].
    - constructor. now left. }
  destruct (String.eqb_spec (step (cur_state sk)) "connect_passkey") as [E5|E5].
  { destruct (passkey_mismatch _ _); cbn; rewrite ?Hsk; cbn.
    - constructor. now left.
    - constructor. right. rewrite E5. split; [discriminate | reflexivity]. }
  destruct (String.eqb_spec (step (cur_state sk)) "username") as [E6|E6].
  { destruct (truthy_str data) eqn:Hd; cbn; rewrite ?Hsk; cbn.
    - destruct (roomId (cur_state sk)) as [r|] eqn:Hr.
      + destruct (JsMap.get r (rooms w)) as [room|] eqn:Hroom; cbn; rewrite ?Hsk; cbn.
        * norm_sock Hsk.
          assert (Hst : set_step (cur_state sk) "chat" = mkState "chat" (Some r)).
          { unfold set_step. now rewrite Hr. }
          rewrite Hst.
          eapply rr_join; eauto.
          destruct (existsb (String.eqb r) (sio_rooms sk)) eqn:Hex.
          -- apply existsb_exists in Hex. destruct Hex as [x [Hx Hxe]].
             apply String.eqb_eq in Hxe. now subst.
          -- apply in_or_app. right. now left.
        * norm_sock Hsk.
          constructor. right. rewrite E6. split; [discriminate | reflexivity].
      + cbn. rewrite ?Hsk; cbn. norm_sock Hsk.
        constructor. right. rewrite E6. split; [discriminate | reflexivity].
    - constructor. now left. }
  cbn. rewrite Hsk. cbn. norm_sock Hsk.
  constructor. now left.
Qed.

(** ** Dispatch *)

Lemma handle_Response w sid data sk :
  JsMap.get sid (sockets w) = Some sk -> closing sk = false ->
  handle uuidv4 w (Response sid data) = out_of (handleResponse uuidv4 sid (trim data) w).
Proof.
  intros Hsk Hc. unfold handle, dispatch, bind, get_world, out_of. rewrite Hsk, Hc.
  destruct (handleResponse uuidv4 sid (trim data) w) as [[[] w'] out]. reflexivity.
Qed.

Lemma handle_ChatMessage w sid data sk :
  JsMap.get sid (sockets w) = Some sk -> closing sk = false ->
  handle uuidv4 w (ChatMessage sid data) = out_of (on_chat_message sid data w).
Proof.
  intros Hsk Hc. unfold handle, dispatch, bind, get_world, out_of. rewrite Hsk, Hc.
  destruct (on_chat_message sid data w) as [[[] w'] out]. reflexivity.
Qed.

Lemma handle_Quit w sid sk :
  JsMap.get sid (sockets w) = Some sk -> closing sk = false ->
  handle uuidv4 w (Quit sid) = out_of (on_quit sid w).
Proof.
  intros Hsk Hc. unfold handle, dispatch, bind, get_world, out_of. rewrite Hsk, Hc.
  destruct (on_quit sid w) as [[[] w'] out]. reflexivity.
Qed.

Lemma handle_Disconnect w sid sk :
  JsMap.get sid (sockets w) = Some sk ->
  handle uuidv4 w (Disconnect sid) =
  out_of (on_disconnect sid (mkWorld (rooms w) (JsMap.delete sid (sockets w)) (uuid_calls w))).
Proof.
  intros Hsk. unfold handle, dispatch, bind, get_world, out_of, drop_socket, JsMap.has.
  rewrite Hsk.
  destruct (on_disconnect sid _) as [[[] w'] out]. reflexivity.
Qed.

Lemma handle_Connection w sid :
  JsMap.get sid (sockets w) = None ->
  handle uuidv4 w (Connection sid) =
  (mkWorld (rooms w)
     (JsMap.set sid (mkSocket (Some (mkState "choice" None)) None [sid] false) (sockets w))
     (uuid_calls w),
   [SocketEmit sid "prompt" prompt_choice]).
Proof.
  intros Hsk. unfold handle, dispatch, bind, get_world, on_connection, JsMap.has, ret.
  rewrite Hsk. reflexivity.
Qed.

Lemma handle_ignored w e : ignored w e -> handle uuidv4 w e = (w, []).
Proof.
  unfold handle, dispatch, bind, get_world, ret, JsMap.has.
  destruct e as [sid|sid data|sid data|sid|sid]; cbn;
    destruct (JsMap.get sid (sockets w)) as [sk|]; try reflexivity; intros H;
    try rewrite H; try reflexivity; try congruence.
Qed.

Lemma event_cases w e :
  ignored w e \/
  match e with
  | Connection sid => JsMap.get sid (sockets w) = None
  | Response sid _ | ChatMessage sid _ | Quit sid =>
      exists sk, JsMap.get sid (sockets w) = Some sk /\ closing sk = false
  | Disconnect sid => exists sk, JsMap.get sid (sockets w) = Some sk
  end.
Proof.
  destruct e as [sid|sid data|sid data|sid|sid]; cbn;
    destruct (JsMap.get sid (sockets w)) as [sk|] eqn:Hsk;
    try (destruct (closing sk) eqn:Hc); eauto; try (left; congruence).
Qed.

(** ** What the other listeners leave alone *)

Lemma on_chat_message_world sid data w : snd (fst (on_chat_message sid data w)) = w.
Proof.
  unfold on_chat_message, bind, get_world, ret, io_to_emit, socket_emit. cbn.
  destruct (JsMap.get sid (sockets w)) as [sk|]; [|reflexivity].
  destruct (state sk) as [st|]; [|reflexivity].
  destruct ((step st =? "chat") && truthy_str data); [|reflexivity].
  destruct (match rooms_get (roomId st) w with Some room => _ | None => None end) as [u|];
    [|reflexivity].
  destruct (roomId st) as [r|]; [|reflexivity].
  destruct (truthy_str u && truthy_str r); reflexivity.
Qed.

Lemma on_quit_sockets sid w sk :
  JsMap.get sid (sockets w) = Some sk ->
  sockets (snd (fst (on_quit sid w))) =
  JsMap.set sid (mkSocket (Some (mkState "choice" None)) (sock_roomId sk) (sio_rooms sk) true)
            (sockets w).
Proof.
  intros Hsk. unfold_leave.
  destruct (findRoomForSocket (rooms w) sid) as [r|]; [|now norm_sock Hsk].
  destruct (truthy_str r); [|now norm_sock Hsk].
  destruct (JsMap.get r (rooms w)) as [room|]; [|now norm_sock Hsk].
  destruct (JsMap.get sid (clients room)) as [u|]; [|now norm_sock Hsk].
  destruct (truthy_str u); now norm_sock Hsk.
Qed.

Lemma on_disconnect_sockets sid w : sockets (snd (fst (on_disconnect sid w))) = sockets w.
Proof.
  unfold_leave.
  destruct (findRoomForSocket (rooms w) sid) as [r|]; [|reflexivity].
  destruct (truthy_str r); [|reflexivity].
  destruct (JsMap.get r (rooms w)) as [room|]; [|reflexivity].
  destruct (JsMap.get sid (clients room)) as [u|]; [|reflexivity].
  destruct (truthy_str u); [|reflexivity]. cbn.
  destruct (JsMap.size _ =? 0)%nat; reflexivity.
Qed.

(** ** The step of every session is a stage *)

Lemma steps_ok_set w w' sid sk' st' :
  steps_ok w ->
  sockets w' = JsMap.set sid sk' (sockets w) ->
  state sk' = Some st' -> valid_step (step st') = true ->
  steps_ok w'.
Proof.
  intros Hw Hs Hst Hv c sk Hc. rewrite Hs in Hc.
  destruct (String.eqb_spec sid c) as [->|Hne].
  - rewrite get_set_same in Hc. injection Hc as <-. eauto.
  - rewrite get_set_other in Hc by exact Hne. eauto.
Qed.

Lemma steps_ok_handle w e : steps_ok w -> steps_ok (fst (handle uuidv4 w e)).
Proof.
  intros Hw. destruct (event_cases w e) as [Hi|Hc].
  { now rewrite handle_ignored. }
  destruct e as [sid|sid data|sid data|sid|sid].
  - rewrite handle_Connection by exact Hc. cbn [fst].
    eapply steps_ok_set; [exact Hw|reflexivity|reflexivity|reflexivity].
  - destruct Hc as [sk [Hsk Hcl]]. rewrite (handle_Response _ _ _ _ Hsk Hcl).
    unfold out_of; cbn [fst snd].
    destruct (Hw _ _ Hsk) as [st [Hst Hv]].
    assert (Hcur : cur_state sk = st) by (unfold cur_state; now rewrite Hst).
    generalize (handleResponse_footprint sid (trim data) w sk Hsk).
    generalize (snd (fst (handleResponse uuidv4 sid (trim data) w))).
    intros w' [st' [->|[_ Hv']]|pk Hn|r room j' _ _ _ _ _].
    + eapply steps_ok_set; [exact Hw|reflexivity|reflexivity|]. now rewrite Hcur.
    + eapply steps_ok_set; [exact Hw|reflexivity|reflexivity|exact Hv'].
    + eapply steps_ok_set; [exact Hw|reflexivity|reflexivity|]. now rewrite Hcur.
    + eapply steps_ok_set; [exact Hw|reflexivity|reflexivity|reflexivity].
  - destruct Hc as [sk [Hsk Hcl]]. rewrite (handle_ChatMessage _ _ _ _ Hsk Hcl).
    unfold out_of; cbn [fst snd]. now rewrite on_chat_message_world.
  - destruct Hc as [sk [Hsk Hcl]]. rewrite (handle_Quit _ _ _ Hsk Hcl).
    unfold out_of; cbn [fst snd].
    eapply steps_ok_set; [exact Hw|apply (on_quit_sockets sid w sk Hsk)|reflexivity|reflexivity].
  - destruct Hc as [sk Hsk]. rewrite (handle_Disconnect _ _ _ Hsk).
    unfold out_of; cbn [fst snd].
    intros c sk' Hc'. rewrite on_disconnect_sockets in Hc'. cbn [sockets] in Hc'.
    destruct (String.eqb_spec sid c) as [->|Hne].
    + now rewrite get_delete_same in Hc'.
    + rewrite get_delete_other in Hc' by exact Hne. eauto.
Qed.

Lemma reachable_steps_ok w : reachable uuidv4 w -> steps_ok w.
Proof.
  induction 1 as [|w e _ IH].
  - intros c sk Hc. discriminate.
  - now apply steps_ok_handle.
Qed.

(** ** Membership *)

Lemma findRoom_In rs sid r :
  findRoomForSocket rs sid = Some r ->
  exists room, In (r, room) rs /\ JsMap.has sid (clients room) = true.
Proof.
  induction rs as [|[r0 room0] rs IH]; cbn; [discriminate|].
  destruct (JsMap.has sid (clients room0)) eqn:Hh; intros H.
  - injection H as <-. exists room0. split; [now left|exact Hh].
  - destruct (IH H) as [room [Hin Hhas]]. exists room. split; [now right|exact Hhas].
Qed.

Lemma findRoom_None rs sid r room :
  findRoomForSocket rs sid = None -> In (r, room) rs -> JsMap.has sid (clients room) = false.
Proof.
  induction rs as [|[r0 room0] rs IH]; cbn; [tauto|].
  destruct (JsMap.has sid (clients room0)) eqn:Hh; [discriminate|].
  intros H [Heq|Hin]; [now injection Heq as <- <-|now apply IH].
Qed.

Lemma findRoom_get rs sid r :
  NoDup (JsMap.keys rs) -> findRoomForSocket rs sid = Some r ->
  exists room u, JsMap.get r rs = Some room /\ JsMap.get sid (clients room) = Some u.
Proof.
  intros Hnd Hf. destruct (findRoom_In _ _ _ Hf) as [room [Hin Hhas]].
  apply has_true in Hhas. destruct Hhas as [u Hu].
  exists room, u. split; [now apply In_get|exact Hu].
Qed.

Lemma findRoom_member rs sid r room u :
  NoDup (JsMap.keys rs) ->
  (forall r' room' u', JsMap.get r' rs = Some room' ->
                       JsMap.get sid (clients room') = Some u' -> r' = r) ->
  JsMap.get r rs = Some room -> JsMap.get sid (clients room) = Some u ->
  findRoomForSocket rs sid = Some r.
Proof.
  intros Hnd Huniq Hr Hu.
  destruct (findRoomForSocket rs sid) as [r'|] eqn:Hf.
  - destruct (findRoom_get _ _ _ Hnd Hf) as [room' [u' [Hr' Hu']]].
    f_equal. eapply Huniq; eauto.
  - apply get_In in Hr. pose proof (findRoom_None _ _ _ _ Hf Hr) as Hn.
    apply has_false in Hn. congruence.
Qed.

Lemma Inv_member_unique w sid r room u r' room' u' :
  Inv w ->
  JsMap.get r (rooms w) = Some room -> JsMap.get sid (clients room) = Some u ->
  JsMap.get r' (rooms w) = Some room' -> JsMap.get sid (clients room') = Some u' ->
  r' = r.
Proof.
  intros HI Hr Hu Hr' Hu'.
  destruct (inv_members _ HI _ _ _ _ Hr Hu) as [_ [sk [Hsk [_ [Hst _]]]]].
  destruct (inv_members _ HI _ _ _ _ Hr' Hu') as [_ [sk' [Hsk' [_ [Hst' _]]]]].
  unfold chat_state in *. congruence.
Qed.

Lemma Inv_member_step w sid sk r room u :
  Inv w -> JsMap.get sid (sockets w) = Some sk ->
  JsMap.get r (rooms w) = Some room -> JsMap.get sid (clients room) = Some u ->
  state sk = Some (chat_state r) /\ closing sk = false /\ In r (sio_rooms sk).
Proof.
  intros HI Hsk Hr Hu.
  destruct (inv_members _ HI _ _ _ _ Hr Hu) as [_ [sk' [Hsk' [Hc [Hst Hin]]]]].
  assert (sk' = sk) by congruence. subst. auto.
Qed.

Lemma not_member_step w sid sk :
  Inv w -> JsMap.get sid (sockets w) = Some sk ->
  step (cur_state sk) <> "chat" -> not_member (rooms w) sid.
Proof.
  intros HI Hsk Hne r room Hr.
  destruct (JsMap.get sid (clients room)) as [u|] eqn:Hu; [|reflexivity].
  destruct (Inv_member_step _ _ _ _ _ _ HI Hsk Hr Hu) as [Hst _].
  exfalso. apply Hne. unfold cur_state. now rewrite Hst.
Qed.

Lemma not_member_closing w sid sk :
  Inv w -> JsMap.get sid (sockets w) = Some sk ->
  closing sk = true -> not_member (rooms w) sid.
Proof.
  intros HI Hsk Hcl r room Hr.
  destruct (JsMap.get sid (clients room)) as [u|] eqn:Hu; [|reflexivity].
  destruct (Inv_member_step _ _ _ _ _ _ HI Hsk Hr Hu) as [_ [Hc _]]. congruence.
Qed.

Lemma not_member_absent w sid :
  Inv w -> JsMap.get sid (sockets w) = None -> not_member (rooms w) sid.
Proof.
  intros HI Hsk r room Hr.
  destruct (JsMap.get sid (clients room)) as [u|] eqn:Hu; [|reflexivity].
  destruct (inv_members _ HI _ _ _ _ Hr Hu) as [_ [sk' [Hsk' _]]]. congruence.
Qed.

Lemma findRoom_not_member rs sid :
  findRoomForSocket rs sid = None -> not_member rs sid.
Proof.
  intros Hf r room Hr. apply get_In in Hr.
  apply has_false. eapply findRoom_None; eauto.
Qed.

(** ** The invariant along the updates the handlers make *)

Lemma Inv_sockets_of w socks n :
  Inv w ->
  (forall c, not_member (rooms w) c \/ JsMap.get c socks = JsMap.get c (sockets w)) ->
  Inv (mkWorld (rooms w) socks n).
Proof.
  intros [Hnd Hids Hmem] Hs. constructor; cbn; [exact Hnd|exact Hids|].
  intros r room c u Hr Hu.
  destruct (Hmem _ _ _ _ Hr Hu) as [Ht [sk [Hsk Hrest]]].
  split; [exact Ht|]. exists sk. cbn. split; [|exact Hrest].
  destruct (Hs c) as [Hn|He]; [|congruence].
  specialize (Hn _ _ Hr). congruence.
Qed.

Lemma Inv_set_socket w sid sk' n :
  Inv w -> not_member (rooms w) sid ->
  Inv (mkWorld (rooms w) (JsMap.set sid sk' (sockets w)) n).
Proof.
  intros HI Hn. apply Inv_sockets_of; [exact HI|].
  intros c. destruct (String.eqb_spec sid c) as [<-|Hne]; [now left|right].
  now apply get_set_other.
Qed.

Lemma Inv_delete_socket w sid n :
  Inv w -> not_member (rooms w) sid ->
  Inv (mkWorld (rooms w) (JsMap.delete sid (sockets w)) n).
Proof.
  intros HI Hn. apply Inv_sockets_of; [exact HI|].
  intros c. destruct (String.eqb_spec sid c) as [<-|Hne]; [now left|right].
  now apply get_delete_other.
Qed.

Lemma Inv_same_socket w sid sk :
  Inv w -> JsMap.get sid (sockets w) = Some sk ->
  forall n,
  Inv (mkWorld (rooms w)
         (JsMap.set sid (mkSocket (Some (cur_state sk)) (sock_roomId sk) (sio_rooms sk) (closing sk))
                    (sockets w)) n).
Proof.
  intros HI Hsk n. destruct HI as [Hnd Hids Hmem]. constructor; cbn; [exact Hnd|exact Hids|].
  intros r room c u Hr Hu.
  destruct (Hmem _ _ _ _ Hr Hu) as [Ht [sk0 [Hsk0 [Hc [Hst Hin]]]]].
  split; [exact Ht|].
  destruct (String.eqb_spec sid c) as [<-|Hne].
  - assert (sk0 = sk) by congruence. subst sk0.
    eexists. split; [cbn; apply get_set_same|]. cbn.
    unfold cur_state. rewrite Hst. auto.
  - exists sk0. cbn. rewrite get_set_other by exact Hne. auto.
Qed.

Lemma Inv_rooms_set_members w r room room' :
  Inv w -> JsMap.get r (rooms w) = Some room ->
  (forall c u, JsMap.get c (clients room') = Some u -> JsMap.get c (clients room) = Some u) ->
  Inv (mkWorld (JsMap.set r room' (rooms w)) (sockets w) (uuid_calls w)).
Proof.
  intros [Hnd Hids Hmem] Hr Hsub. constructor; cbn.
  - now apply NoDup_keys_set.
  - intros r1 room1. destruct (String.eqb_spec r r1) as [<-|Hne].
    + intros _. eauto.
    + rewrite get_set_other by exact Hne. eauto.
  - intros r1 room1 c u. destruct (String.eqb_spec r r1) as [<-|Hne].
    + rewrite get_set_same. intros H Hu. injection H as <-.
      apply (Hmem _ _ _ _ Hr (Hsub _ _ Hu)).
    + rewrite get_set_other by exact Hne. intros H Hu. apply (Hmem _ _ _ _ H Hu).
Qed.

Lemma Inv_rooms_delete w r :
  Inv w -> Inv (mkWorld (JsMap.delete r (rooms w)) (sockets w) (uuid_calls w)).
Proof.
  intros [Hnd Hids Hmem]. constructor; cbn.
  - now apply NoDup_keys_delete.
  - intros r1 room1. destruct (String.eqb_spec r r1) as [<-|Hne].
    + now rewrite get_delete_same.
    + rewrite get_delete_other by exact Hne. eauto.
  - intros r1 room1 c u. destruct (String.eqb_spec r r1) as [<-|Hne].
    + now rewrite get_delete_same.
    + rewrite get_delete_other by exact Hne. intros H Hu. apply (Hmem _ _ _ _ H Hu).
Qed.

Lemma Inv_create w r pk n :
  Inv w -> truthy_str r = true ->
  Inv (mkWorld (JsMap.set r (mkRoom pk []) (rooms w)) (sockets w) n).
Proof.
  intros [Hnd Hids Hmem] Ht. constructor; cbn.
  - now apply NoDup_keys_set.
  - intros r1 room1. destruct (String.eqb_spec r r1) as [<-|Hne].
    + intros _. exact Ht.
    + rewrite get_set_other by exact Hne. eauto.
  - intros r1 room1 c u. destruct (String.eqb_spec r r1) as [<-|Hne].
    + rewrite get_set_same. intros H. injection H as <-. discriminate.
    + rewrite get_set_other by exact Hne. intros H Hu. apply (Hmem _ _ _ _ H Hu).
Qed.

Lemma Inv_join w sid sk r room data x joined' n :
  Inv w -> JsMap.get sid (sockets w) = Some sk -> closing sk = false ->
  not_member (rooms w) sid ->
  JsMap.get r (rooms w) = Some room -> truthy_str data = true -> In r joined' ->
  Inv (mkWorld
         (JsMap.set r (mkRoom (passkey room) (JsMap.set sid data (clients room))) (rooms w))
         (JsMap.set sid (mkSocket (Some (chat_state r)) x joined' (closing sk)) (sockets w))
         n).
Proof.
  intros [Hnd Hids Hmem] Hsk Hcl Hnm Hr Hd Hj. constructor; cbn.
  - now apply NoDup_keys_set.
  - intros r1 room1. destruct (String.eqb_spec r r1) as [<-|Hne].
    + intros _. eauto.
    + rewrite get_set_other by exact Hne. eauto.
  - intros r1 room1 c u Hr1 Hu.
    assert (Hold : forall r2 room2, JsMap.get r2 (rooms w) = Some room2 ->
                     JsMap.get c (clients room2) = Some u -> c <> sid ->
                     member_ok (mkWorld
         (JsMap.set r (mkRoom (passkey room) (JsMap.set sid data (clients room))) (rooms w))
         (JsMap.set sid (mkSocket (Some (chat_state r)) x joined' (closing sk)) (sockets w))
         n) r2 c u).
    { intros r2 room2 Hr2 Hu2 Hc.
      destruct (Hmem _ _ _ _ Hr2 Hu2) as [Ht [sk0 [Hsk0 Hrest]]].
      split; [exact Ht|]. exists sk0. cbn. rewrite get_set_other by congruence. auto. }
    destruct (String.eqb_spec r r1) as [<-|Hne].
    + rewrite get_set_same in Hr1. injection Hr1 as <-. cbn in Hu.
      destruct (String.eqb_spec sid c) as [<-|Hc].
      * rewrite get_set_same in Hu. injection Hu as <-.
        split; [exact Hd|]. eexists. cbn. split; [apply get_set_same|]. cbn. auto.
      * rewrite get_set_other in Hu by exact Hc. eapply Hold; eauto.
    + rewrite get_set_other in Hr1 by exact Hne.
      destruct (String.eqb_spec sid c) as [<-|Hc].
      * rewrite (Hnm _ _ Hr1) in Hu. discriminate.
      * eapply Hold; eauto.
Qed.

(** ** [quit] and [disconnect], of a member and of a non-member *)

Lemma on_quit_member w sid sk r room u :
  findRoomForSocket (rooms w) sid = Some r ->
  JsMap.get r (rooms w) = Some room -> JsMap.get sid (clients room) = Some u ->
  truthy_str r = true -> truthy_str u = true ->
  JsMap.get sid (sockets w) = Some sk ->
  on_quit sid w =
  (tt,
   mkWorld (JsMap.set r (without sid room) (rooms w))
           (JsMap.set sid (quit_socket sk) (sockets w)) (uuid_calls w),
   [RoomEmit r (recipients r w) "message" (left_notice u)]).
Proof.
  intros Hf Hr Hu Htr Htu Hsk. unfold_leave. rewrite Hf, Htr, Hr, Hu, Htu.
  norm_sock Hsk. reflexivity.
Qed.

Lemma on_quit_not_member w sid sk :
  findRoomForSocket (rooms w) sid = None ->
  JsMap.get sid (sockets w) = Some sk ->
  on_quit sid w =
  (tt, mkWorld (rooms w) (JsMap.set sid (quit_socket sk) (sockets w)) (uuid_calls w), []).
Proof.
  intros Hf Hsk. unfold_leave. rewrite Hf. norm_sock Hsk. reflexivity.
Qed.

Lemma on_disconnect_member w sid r room u :
  findRoomForSocket (rooms w) sid = Some r ->
  JsMap.get r (rooms w) = Some room -> JsMap.get sid (clients room) = Some u ->
  truthy_str r = true -> truthy_str u = true ->
  on_disconnect sid w =
  (tt,
   mkWorld (if (JsMap.size (clients (without sid room)) =? 0)%nat
            then JsMap.delete r (JsMap.set r (without sid room) (rooms w))
            else JsMap.set r (without sid room) (rooms w))
           (sockets w) (uuid_calls w),
   [RoomEmit r (recipients r w) "message" (left_notice u)]).
Proof.
  intros Hf Hr Hu Htr Htu. unfold_leave. rewrite Hf, Htr, Hr, Hu, Htu.
  unfold without, JsMap.size. cbn.
  destruct (length (JsMap.delete sid (clients room)) =? 0)%nat; reflexivity.
Qed.

Lemma on_disconnect_not_member w sid :
  findRoomForSocket (rooms w) sid = None -> on_disconnect sid w = (tt, w, []).
Proof.
  intros Hf. unfold_leave. rewrite Hf. destruct w; reflexivity.
Qed.

Lemma not_member_without w sid r room u :
  Inv w -> JsMap.get r (rooms w) = Some room -> JsMap.get sid (clients room) = Some u ->
  not_member (JsMap.set r (without sid room) (rooms w)) sid.
Proof.
  intros HI Hr Hu r1 room1 Hr1.
  destruct (String.eqb_spec r r1) as [<-|Hne].
  - rewrite get_set_same in Hr1. injection Hr1 as <-. cbn. apply get_delete_same.
  - rewrite get_set_other in Hr1 by exact Hne.
    destruct (JsMap.get sid (clients room1)) as [u1|] eqn:Hu1; [|reflexivity].
    exfalso. apply Hne. symmetry. eapply Inv_member_unique; eauto.
Qed.

Lemma Inv_without w sid r room :
  Inv w -> JsMap.get r (rooms w) = Some room ->
  Inv (mkWorld (JsMap.set r (without sid room) (rooms w)) (sockets w) (uuid_calls w)).
Proof.
  intros HI Hr. eapply Inv_rooms_set_members; eauto.
  intros c u. cbn. destruct (String.eqb_spec sid c) as [<-|Hne].
  - now rewrite get_delete_same.
  - now rewrite get_delete_other by exact Hne.
Qed.

Lemma Inv_findRoom w sid r :
  Inv w -> findRoomForSocket (rooms w) sid = Some r ->
  exists room u, JsMap.get r (rooms w) = Some room /\ JsMap.get sid (clients room) = Some u /\
                 truthy_str r = true /\ truthy_str u = true.
Proof.
  intros HI Hf. destruct (findRoom_get _ _ _ (inv_nodup _ HI) Hf) as [room [u [Hr Hu]]].
  exists room, u. repeat split; auto.
  - eapply inv_room_ids; eauto.
  - now destruct (inv_members _ HI _ _ _ _ Hr Hu).
Qed.

Lemma Inv_findRoom_member w sid r room u :
  Inv w -> JsMap.get r (rooms w) = Some room -> JsMap.get sid (clients room) = Some u ->
  findRoomForSocket (rooms w) sid = Some r.
Proof.
  intros HI Hr Hu. eapply findRoom_member; eauto using inv_nodup.
  intros r' room' u' Hr' Hu'. eapply Inv_member_unique; eauto.
Qed.

(** ** Chat messages outside chat *)

Lemma set_socket_same w sid sk :
  JsMap.get sid (sockets w) = Some sk ->
  mkWorld (rooms w)
    (JsMap.set sid (mkSocket (state sk) (sock_roomId sk) (sio_rooms sk) (closing sk)) (sockets w))
    (uuid_calls w) = w.
Proof.
  intros Hsk. destruct w as [rs ss n]; cbn in *. f_equal.
  apply set_same. now destruct sk.
Qed.

Lemma on_chat_message_not_chat sid data w :
  socket_step w sid <> Some "chat" -> on_chat_message sid data w = (tt, w, []).
Proof.
  unfold socket_step, on_chat_message, bind, get_world, ret. cbn.
  destruct (JsMap.get sid (sockets w)) as [sk|]; [|reflexivity].
  destruct (state sk) as [st|]; [|reflexivity].
  destruct (String.eqb_spec (step st) "chat") as [->|Hne]; [congruence|reflexivity].
Qed.

Lemma handle_chat_not_chat w sid data :
  socket_step w sid <> Some "chat" -> handle uuidv4 w (ChatMessage sid data) = (w, []).
Proof.
  intros H. unfold handle, dispatch, bind, get_world, ret.
  destruct (JsMap.get sid (sockets w)) as [sk|]; [|reflexivity].
  destruct (closing sk); [reflexivity|].
  now rewrite on_chat_message_not_chat.
Qed.

(** C3, amended.  For every session whose step is not [chat] (and for a
    socket that is not connected or has no state), an incoming
    [chat_message] has no effect at all: the world is unchanged and
    nothing is sent, neither a private error nor a broadcast. *)
Theorem chat_message_outside_chat_is_ignored w sid data :
  socket_step w sid <> Some "chat" ->
  handle uuidv4 w (ChatMessage sid data) = (w, []).
Proof. apply handle_chat_not_chat. Qed.

(** C6.  For every session whose step is not [chat], a [chat_message]
    payload it submits is delivered to no other connection: the event
    produces no delivery to any socket but the sender's, and it leaves
    the world as it was, so nothing of the payload is kept for later. *)
Theorem chat_message_outside_chat_reaches_nobody w sid data :
  socket_step w sid <> Some "chat" ->
  fst (handle uuidv4 w (ChatMessage sid data)) = w /\
  forall c ev msg,
    c <> sid -> ~ In (c, ev, msg) (all_deliveries (snd (handle uuidv4 w (ChatMessage sid data)))).
Proof.
  intros H. rewrite handle_chat_not_chat by exact H. split; [reflexivity|].
  intros c ev msg _ [].
Qed.

(** ** The passkey step *)

Lemma passkey_mismatch_false w st data :
  passkey_mismatch (rooms_get (roomId st) w) data = false <-> passkey_matches w st data.
Proof.
  unfold passkey_mismatch, passkey_matches.
  destruct (rooms_get (roomId st) w) as [room|].
  - destruct (passkey room) as [pk|] eqn:Hpk.
    + destruct (String.eqb_spec data pk) as [->|Hne]; cbn; split; intros H.
      * eauto.
      * reflexivity.
      * discriminate.
      * destruct H as [room' [Hr Hp]]. injection Hr as <-. congruence.
    + split; [discriminate|]. intros [room' [Hr Hp]]. injection Hr as <-. congruence.
  - split; [discriminate|]. intros [room' [Hr _]]. discriminate.
Qed.

Lemma handleResponse_connect_passkey w sid sk st data :
  JsMap.get sid (sockets w) = Some sk -> state sk = Some st ->
  step st = "connect_passkey" ->
  handleResponse uuidv4 sid data w =
  if passkey_mismatch (rooms_get (roomId st) w) data
  then (tt, w, [SocketEmit sid "error" "Invalid passkey.";
                SocketEmit sid "prompt" prompt_connect_passkey])
  else (tt,
        mkWorld (rooms w)
          (JsMap.set sid (mkSocket (Some (set_step st "username")) (sock_roomId sk)
                                   (sio_rooms sk) (closing sk)) (sockets w))
          (uuid_calls w),
        [SocketEmit sid "prompt" prompt_username]).
Proof.
  intros Hsk Hst Hstep. step_handler. rewrite Hsk, Hst, Hstep. cbn.
  destruct (passkey_mismatch _ _); norm_sock Hsk; [|reflexivity].
  rewrite <- Hst. now rewrite set_socket_same.
Qed.

(** C4.  For every session at step [connect_passkey], [handleResponse]
    moves it to [username] if and only if the room recorded in its state
    is in the registry and the text is equal to that room's passkey;
    otherwise (mismatch, or the room is gone) it sends the error
    "Invalid passkey." and the prompt again, and the world, hence the
    session's step, is unchanged.  ([data] is the text [handleResponse]
    receives: the [response] listener passes the payload trimmed.) *)
Theorem connect_passkey_advances_iff_match w sid sk st data :
  JsMap.get sid (sockets w) = Some sk -> state sk = Some st ->
  step st = "connect_passkey" ->
  (socket_step (snd (fst (handleResponse uuidv4 sid data w))) sid = Some "username"
     <-> passkey_matches w st data) /\
  (~ passkey_matches w st data ->
     handleResponse uuidv4 sid data w =
     (tt, w, [SocketEmit sid "error" "Invalid passkey.";
              SocketEmit sid "prompt" prompt_connect_passkey]) /\
     socket_step w sid = Some "connect_passkey").
Proof.
  intros Hsk Hst Hstep.
  rewrite (handleResponse_connect_passkey w sid sk st data Hsk Hst Hstep).
  assert (Hcur : socket_step w sid = Some "connect_passkey").
  { unfold socket_step. now rewrite Hsk, Hst, Hstep. }
  pose proof (passkey_mismatch_false w st data) as Hiff.
  destruct (passkey_mismatch _ _); cbn [fst snd].
  - split.
    + rewrite Hcur. split; [discriminate|]. intros H. apply Hiff in H. discriminate.
    + auto.
  - split.
    + unfold socket_step. cbn. rewrite get_set_same. cbn. split; [intros _|reflexivity].
      now apply Hiff.
    + intros Hn. exfalso. apply Hn. now apply Hiff.
Qed.

Lemma valid_step_stages s : valid_step s = true <-> In s stages.
Proof.
  unfold valid_step. fold stages. rewrite existsb_exists. split.
  - intros [x [Hin Heq]]. apply String.eqb_eq in Heq. now subst.
  - intros Hin. exists s. split; [exact Hin|apply String.eqb_refl].
Qed.

(** C5.  Whatever events have been handled, every connected socket has
    a state whose step is one of the seven stages. *)
Theorem step_is_always_a_stage w sid sk :
  reachable uuidv4 w -> JsMap.get sid (sockets w) = Some sk ->
  exists st, state sk = Some st /\ In (step st) stages.
Proof.
  intros Hr Hsk. destruct (reachable_steps_ok w Hr sid sk Hsk) as [st [Hst Hv]].
  exists st. split; [exact Hst|]. now apply valid_step_stages.
Qed.

Lemma reachable_run w es : reachable uuidv4 w -> reachable uuidv4 (fst (run uuidv4 w es)).
Proof.
  revert w. induction es as [|e es IH]; intros w Hw; cbn; [exact Hw|].
  destruct (handle uuidv4 w e) as [w1 o1] eqn:He.
  specialize (IH w1). destruct (run uuidv4 w1 es) as [w2 o2]. cbn in *.
  apply IH. change w1 with (fst (w1, o1)). rewrite <- He. now constructor.
Qed.

(** ** Chat messages of members and of stale sessions *)

Lemma In_recipients w r c sk :
  JsMap.get c (sockets w) = Some sk -> In r (sio_rooms sk) -> In c (recipients r w).
Proof.
  intros Hsk Hin. unfold recipients. apply get_In in Hsk.
  change c with (fst (c, sk)). apply in_map. apply filter_In. split; [exact Hsk|].
  cbn. apply existsb_exists. exists r. split; [exact Hin|apply String.eqb_refl].
Qed.

Lemma truthy_str_true s : truthy_str s = true <-> s <> EmptyString.
Proof.
  unfold truthy_str. destruct (String.eqb_spec s EmptyString); cbn; split; congruence.
Qed.

Lemma on_chat_message_member w sid sk r room u data :
  JsMap.get sid (sockets w) = Some sk -> state sk = Some (chat_state r) ->
  JsMap.get r (rooms w) = Some room -> JsMap.get sid (clients room) = Some u ->
  truthy_str u = true -> truthy_str r = true -> truthy_str data = true ->
  on_chat_message sid data w =
  (tt, w, [RoomEmit r (recipients r w) "message" ("[" ++ u ++ "] " ++ data)%string]).
Proof.
  intros Hsk Hst Hr Hu Htu Htr Htd.
  unfold on_chat_message, bind, get_world, ret, io_to_emit, rooms_get. cbn.
  rewrite Hsk, Hst. cbn. rewrite Htd, Hr, Hu, Htu, Htr. reflexivity.
Qed.

Lemma on_chat_message_stale w sid data :
  stale w sid -> truthy_str data = true ->
  on_chat_message sid data w =
  (tt, w, [SocketEmit sid "error" "Not in a valid room or username not set."]).
Proof.
  intros [[sk [st [Hsk [Hcl [Hst Hstep]]]]] Hnm] Htd.
  unfold on_chat_message, bind, get_world, ret, socket_emit, rooms_get. cbn.
  rewrite Hsk, Hst, Hstep, Htd. cbn.
  destruct (roomId st) as [r|]; [|reflexivity].
  destruct (JsMap.get r (rooms w)) as [room|] eqn:Hr; [|reflexivity].
  now rewrite (Hnm _ _ Hr).
Qed.

(** ** What the events of other sockets leave alone *)

Lemma not_member_set_room rs r room' sid :
  not_member rs sid -> JsMap.get sid (clients room') = None ->
  not_member (JsMap.set r room' rs) sid.
Proof.
  intros Hnm Hn r1 room1. destruct (String.eqb_spec r r1) as [<-|Hne].
  - rewrite get_set_same. intros H. now injection H as <-.
  - rewrite get_set_other by exact Hne. apply Hnm.
Qed.

Lemma not_member_delete_room rs r sid :
  not_member rs sid -> not_member (JsMap.delete r rs) sid.
Proof.
  intros Hnm r1 room1. destruct (String.eqb_spec r r1) as [<-|Hne].
  - now rewrite get_delete_same.
  - rewrite get_delete_other by exact Hne. apply Hnm.
Qed.

Lemma get_without sid c room :
  JsMap.get sid (clients room) = None -> JsMap.get sid (JsMap.delete c (clients room)) = None.
Proof.
  intros H. destruct (String.eqb_spec c sid) as [->|Hne].
  - apply get_delete_same.
  - now rewrite get_delete_other.
Qed.

Lemma on_quit_not_member_other w c sid :
  not_member (rooms w) sid -> not_member (rooms (snd (fst (on_quit c w)))) sid.
Proof.
  intros Hnm. unfold_leave.
  destruct (JsMap.get c (sockets w)) as [sk|] eqn:Hc;
    (destruct (findRoomForSocket (rooms w) c) as [r|]; [|now norm_sock Hc]);
    (destruct (truthy_str r); [|now norm_sock Hc]);
    (destruct (JsMap.get r (rooms w)) as [room|] eqn:Hr; [|now norm_sock Hc]);
    (destruct (JsMap.get c (clients room)) as [u|]; [|now norm_sock Hc]);
    (destruct (truthy_str u); [|now norm_sock Hc]);
    norm_sock Hc;
    (apply not_member_set_room; [exact Hnm|]); cbn; apply get_without; eapply Hnm; eauto.
Qed.

Lemma on_disconnect_not_member_other w c sid :
  not_member (rooms w) sid -> not_member (rooms (snd (fst (on_disconnect c w)))) sid.
Proof.
  intros Hnm. unfold_leave.
  destruct (findRoomForSocket (rooms w) c) as [r|]; [|exact Hnm].
  destruct (truthy_str r); [|exact Hnm].
  destruct (JsMap.get r (rooms w)) as [room|] eqn:Hr; [|exact Hnm].
  destruct (JsMap.get c (clients room)) as [u|]; [|exact Hnm].
  destruct (truthy_str u); [|exact Hnm]. cbn.
  assert (H1 : not_member (JsMap.set r (mkRoom (passkey room) (JsMap.delete c (clients room)))
                                     (rooms w)) sid).
  { apply not_member_set_room; [exact Hnm|]. cbn. apply get_without. eapply Hnm; eauto. }
  destruct (JsMap.size _ =? 0)%nat; cbn; [|exact H1].
  now apply not_member_delete_room.
Qed.

Lemma resp_result_sockets sid data w sk w' :
  resp_result uuidv4 sid data w sk w' -> exists sk', sockets w' = JsMap.set sid sk' (sockets w).
Proof. intros [st' _|pk _|r room j' _ _ _ _ _]; cbn; eauto. Qed.

Lemma resp_result_not_member sid data w sk w' c :
  resp_result uuidv4 sid data w sk w' -> c <> sid ->
  not_member (rooms w) c -> not_member (rooms w') c.
Proof.
  intros [st' _|pk _|r room j' _ _ Hr _ _] Hne Hnm; cbn.
  - exact Hnm.
  - now apply not_member_set_room.
  - apply not_member_set_room; [exact Hnm|]. cbn.
    rewrite get_set_other by congruence. eapply Hnm; eauto.
Qed.

(** The socket of [sid] is untouched by what happens on other sockets. *)
Lemma handle_other_socket w e sid :
  event_socket e <> sid ->
  JsMap.get sid (sockets (fst (handle uuidv4 w e))) = JsMap.get sid (sockets w).
Proof.
  intros Hne. destruct (event_cases w e) as [Hi|Hc].
  { now rewrite handle_ignored. }
  destruct e as [c|c data|c data|c|c]; cbn in Hne.
  - rewrite handle_Connection by exact Hc. cbn. now apply get_set_other.
  - destruct Hc as [sk [Hsk Hcl]]. rewrite (handle_Response _ _ _ _ Hsk Hcl).
    unfold out_of; cbn [fst snd].
    destruct (resp_result_sockets _ _ _ _ _ (handleResponse_footprint c (trim data) w sk Hsk))
      as [sk' ->].
    now apply get_set_other.
  - destruct Hc as [sk [Hsk Hcl]]. rewrite (handle_ChatMessage _ _ _ _ Hsk Hcl).
    unfold out_of; cbn [fst snd]. now rewrite on_chat_message_world.
  - destruct Hc as [sk [Hsk Hcl]]. rewrite (handle_Quit _ _ _ Hsk Hcl).
    unfold out_of; cbn [fst snd]. rewrite (on_quit_sockets c w sk Hsk).
    now apply get_set_other.
  - destruct Hc as [sk Hsk]. rewrite (handle_Disconnect _ _ _ Hsk).
    unfold out_of; cbn [fst snd]. rewrite on_disconnect_sockets. cbn.
    now apply get_delete_other.
Qed.

Lemma handle_other_not_member w e sid :
  event_socket e <> sid ->
  not_member (rooms w) sid -> not_member (rooms (fst (handle uuidv4 w e))) sid.
Proof.
  intros Hne Hnm. destruct (event_cases w e) as [Hi|Hc].
  { now rewrite handle_ignored. }
  destruct e as [c|c data|c data|c|c]; cbn in Hne.
  - rewrite handle_Connection by exact Hc. exact Hnm.
  - destruct Hc as [sk [Hsk Hcl]]. rewrite (handle_Response _ _ _ _ Hsk Hcl).
    unfold out_of; cbn [fst snd].
    eapply resp_result_not_member; eauto using handleResponse_footprint.
  - destruct Hc as [sk [Hsk Hcl]]. rewrite (handle_ChatMessage _ _ _ _ Hsk Hcl).
    unfold out_of; cbn [fst snd]. now rewrite on_chat_message_world.
  - destruct Hc as [sk [Hsk Hcl]]. rewrite (handle_Quit _ _ _ Hsk Hcl).
    unfold out_of; cbn [fst snd]. now apply on_quit_not_member_other.
  - destruct Hc as [sk Hsk]. rewrite (handle_Disconnect _ _ _ Hsk).
    unfold out_of; cbn [fst snd]. now apply on_disconnect_not_member_other.
Qed.

Lemma is_closing_handle w e sid :
  is_closing w sid -> e <> Disconnect sid -> is_closing (fst (handle uuidv4 w e)) sid.
Proof.
  intros [sk [Hsk Hcl]] Hne.
  destruct (String.eqb_spec (event_socket e) sid) as [Heq|Hother].
  - rewrite handle_ignored; [now exists sk|].
    destruct e; cbn in Heq; subst; cbn; rewrite ?Hsk; congruence.
  - exists sk. now rewrite handle_other_socket.
Qed.

Lemma is_closing_run w es sid :
  is_closing w sid -> Forall (fun e => e <> Disconnect sid) es ->
  is_closing (fst (run uuidv4 w es)) sid.
Proof.
  intros Hc Hes. revert w Hc. induction Hes as [|e es He _ IH]; intros w Hc; cbn; [exact Hc|].
  pose proof (is_closing_handle w e sid Hc He) as H1.
  destruct (handle uuidv4 w e) as [w1 o1]. specialize (IH w1 H1).
  destruct (run uuidv4 w1 es) as [w2 o2]. exact IH.
Qed.

Lemma stale_handle w e sid :
  stale w sid -> e <> Quit sid -> e <> Disconnect sid -> stale (fst (handle uuidv4 w e)) sid.
Proof.
  intros Hst Hq Hd.
  destruct (String.eqb_spec (event_socket e) sid) as [Heq|Hother].
  - destruct Hst as [[sk [st [Hsk [Hcl [Hstate Hstep]]]]] Hnm].
    destruct e as [c|c data|c data|c|c]; cbn in Heq; subst c; try congruence.
    + rewrite handle_ignored; [|cbn; congruence].
      split; [now exists sk, st|exact Hnm].
    + rewrite (handle_Response _ _ _ _ Hsk Hcl). unfold out_of; cbn [fst snd].
      assert (Hcur : cur_state sk = st) by (unfold cur_state; now rewrite Hstate).
      generalize (handleResponse_footprint sid (trim data) w sk Hsk).
      generalize (snd (fst (handleResponse uuidv4 sid (trim data) w))).
      intros w' [st' [->|[Hn _]]|pk Hn|r room j' Hu _ _ _ _]; try congruence.
      split; [|exact Hnm]. eexists _, st. cbn. rewrite get_set_same.
      rewrite Hcur. auto.
    + rewrite (handle_ChatMessage _ _ _ _ Hsk Hcl). unfold out_of; cbn [fst snd].
      rewrite on_chat_message_world. split; [now exists sk, st|exact Hnm].
  - destruct Hst as [[sk [st [Hsk Hrest]]] Hnm]. split.
    + exists sk, st. now rewrite handle_other_socket.
    + now apply handle_other_not_member.
Qed.

Lemma stale_run w es sid :
  stale w sid -> Forall (fun e => e <> Quit sid /\ e <> Disconnect sid) es ->
  stale (fst (run uuidv4 w es)) sid.
Proof.
  intros Hc Hes. revert w Hc.
  induction Hes as [|e es [Hq Hd] _ IH]; intros w Hc; cbn; [exact Hc|].
  pose proof (stale_handle w e sid Hc Hq Hd) as H1.
  destruct (handle uuidv4 w e) as [w1 o1]. specialize (IH w1 H1).
  destruct (run uuidv4 w1 es) as [w2 o2]. exact IH.
Qed.

Lemma not_member_findRoom rs sid :
  not_member rs sid -> NoDup (JsMap.keys rs) -> findRoomForSocket rs sid = None.
Proof.
  intros Hnm Hnd. destruct (findRoomForSocket rs sid) as [r|] eqn:Hf; [|reflexivity].
  destruct (findRoom_get _ _ _ Hnd Hf) as [room [u [Hr Hu]]].
  rewrite (Hnm _ _ Hr) in Hu. discriminate.
Qed.

(** ** The rejected inputs of the six onboarding steps, and the rest *)

Lemma handleResponse_rejected w sid sk st data err prompt :
  JsMap.get sid (sockets w) = Some sk -> state sk = Some st ->
  rejected w st data err prompt ->
  handleResponse uuidv4 sid data w =
  (tt, w, [SocketEmit sid "error" err; SocketEmit sid "prompt" prompt]).
Proof.
  intros Hsk Hst Hrej.
  assert (Hsame : mkWorld (rooms w)
            (JsMap.set sid (mkSocket (Some st) (sock_roomId sk) (sio_rooms sk) (closing sk))
                       (sockets w)) (uuid_calls w) = w).
  { rewrite <- Hst. now apply set_socket_same. }
  destruct Hrej as [Hstep H1 H2|Hstep H1 H2|Hstep ->|Hstep Hroom|Hstep Hpk|Hstep ->];
    step_handler; rewrite Hsk, Hst, Hstep; cbn.
  - destruct (String.eqb_spec data "1"); [contradiction|].
    destruct (String.eqb_spec data "2"); [contradiction|].
    norm_sock Hsk. now rewrite Hsame.
  - destruct (String.eqb_spec data "1"); [contradiction|].
    destruct (String.eqb_spec data "2"); [contradiction|].
    norm_sock Hsk. now rewrite Hsame.
  - norm_sock Hsk. now rewrite Hsame.
  - rewrite Hroom. norm_sock Hsk. now rewrite Hsame.
  - destruct (passkey_mismatch _ _) eqn:Hm.
    + norm_sock Hsk. now rewrite Hsame.
    + exfalso. apply Hpk. now apply passkey_mismatch_false.
  - norm_sock Hsk. now rewrite Hsame.
Qed.

(** In any other step the reset [socket.state = { step: "choice" }] is
    undone by the last statement, which stores the old state back. *)
Lemma handleResponse_other_step w sid sk st data :
  JsMap.get sid (sockets w) = Some sk -> state sk = Some st ->
  ~ In (step st) ["choice"; "host_type"; "host_passkey"; "connect_room";
                  "connect_passkey"; "username"] ->
  handleResponse uuidv4 sid data w =
  (tt, w, [SocketEmit sid "error" "Invalid state. Please reconnect.";
           SocketEmit sid "prompt" prompt_choice]).
Proof.
  intros Hsk Hst Hnot. step_handler. rewrite Hsk, Hst. cbn.
  repeat match goal with
  | |- context [(step st =? ?s)%string] =>
      destruct (String.eqb_spec (step st) s) as [Heq|_];
      [exfalso; apply Hnot; rewrite Heq; cbn; tauto|]
  end.
  norm_sock Hsk. rewrite <- Hst. now rewrite set_socket_same.
Qed.

(** Hosting: the room is created, and the state that is stored back is
    the one the handler started with. *)
Lemma handleResponse_host w sid sk st data :
  JsMap.get sid (sockets w) = Some sk -> state sk = Some st ->
  (step st = "host_type" /\ data = "1") \/ (step st = "host_passkey" /\ data <> EmptyString) ->
  exists pk msg,
    handleResponse uuidv4 sid data w =
    (tt,
     mkWorld (JsMap.set (uuidv4 (uuid_calls w)) (mkRoom pk []) (rooms w))
       (JsMap.set sid (mkSocket (Some st) (Some (uuidv4 (uuid_calls w)))
                                (sio_rooms sk) (closing sk)) (sockets w))
       (S (uuid_calls w)),
     [SocketEmit sid "message" msg; SocketEmit sid "prompt" prompt_username]).
Proof.
  intros Hsk Hst [[Hstep ->]|[Hstep Hd]].
  - exists None. eexists. step_handler. rewrite Hsk, Hst, Hstep. norm_sock Hsk. reflexivity.
  - exists (Some data). eexists. apply truthy_str_true in Hd.
    step_handler. rewrite Hsk, Hst, Hstep. cbn. rewrite Hd. norm_sock Hsk. reflexivity.
Qed.

(** From here on: [uuidv4()] never returns the empty string. *)
Hypothesis uuidv4_truthy : forall n, uuidv4 n <> EmptyString.

Lemma uuidv4_truthy_str n : truthy_str (uuidv4 n) = true.
Proof.
  unfold truthy_str. destruct (String.eqb_spec (uuidv4 n) EmptyString); [|reflexivity].
  now destruct (uuidv4_truthy n).
Qed.

(** ** The invariant holds in every reachable world *)

Lemma Inv_handle w e : Inv w -> Inv (fst (handle uuidv4 w e)).
Proof.
  intros HI. destruct (event_cases w e) as [Hi|Hc].
  { now rewrite handle_ignored. }
  destruct e as [sid|sid data|sid data|sid|sid].
  - rewrite handle_Connection by exact Hc. cbn [fst].
    apply Inv_set_socket; [exact HI|]. now apply not_member_absent.
  - destruct Hc as [sk [Hsk Hcl]]. rewrite (handle_Response _ _ _ _ Hsk Hcl).
    unfold out_of; cbn [fst snd].
    generalize (handleResponse_footprint sid (trim data) w sk Hsk).
    generalize (snd (fst (handleResponse uuidv4 sid (trim data) w))).
    intros w' [st' [->|[Hn _]]|pk Hn|r room j' Hstep Hrid Hr Hd Hj].
    + now apply Inv_same_socket.
    + apply Inv_set_socket; [exact HI|]. eapply not_member_step; eauto.
    + apply (Inv_create (mkWorld (rooms w) _ (uuid_calls w))); [|apply uuidv4_truthy_str].
      apply Inv_set_socket; [exact HI|]. eapply not_member_step; eauto.
    + eapply Inv_join; eauto. eapply not_member_step; eauto.
      rewrite Hstep. discriminate.
  - destruct Hc as [sk [Hsk Hcl]]. rewrite (handle_ChatMessage _ _ _ _ Hsk Hcl).
    unfold out_of; cbn [fst snd]. now rewrite on_chat_message_world.
  - destruct Hc as [sk [Hsk Hcl]]. rewrite (handle_Quit _ _ _ Hsk Hcl).
    unfold out_of; cbn [fst snd].
    destruct (findRoomForSocket (rooms w) sid) as [r|] eqn:Hf.
    + destruct (Inv_findRoom _ _ _ HI Hf) as [room [u [Hr [Hu [Htr Htu]]]]].
      rewrite (on_quit_member _ _ _ _ _ _ Hf Hr Hu Htr Htu Hsk). cbn [fst snd].
      apply (Inv_set_socket (mkWorld _ (sockets w) (uuid_calls w))).
      * now apply Inv_without.
      * eapply not_member_without; eauto.
    + rewrite (on_quit_not_member _ _ _ Hf Hsk). cbn [fst snd].
      apply Inv_set_socket; [exact HI|]. now apply findRoom_not_member.
  - destruct Hc as [sk Hsk]. rewrite (handle_Disconnect _ _ _ Hsk).
    unfold out_of; cbn [fst snd].
    destruct (findRoomForSocket (rooms w) sid) as [r|] eqn:Hf.
    + destruct (Inv_findRoom _ _ _ HI Hf) as [room [u [Hr [Hu [Htr Htu]]]]].
      rewrite (on_disconnect_member _ sid r room u); cbn [rooms sockets uuid_calls]; auto.
      cbn [fst snd].
      assert (H1 : Inv (mkWorld (JsMap.set r (without sid room) (rooms w))
                          (JsMap.delete sid (sockets w)) (uuid_calls w))).
      { apply (Inv_delete_socket (mkWorld _ (sockets w) (uuid_calls w))).
        - now apply Inv_without.
        - eapply not_member_without; eauto. }
      destruct (JsMap.size (clients (without sid room)) =? 0)%nat; [|exact H1].
      apply (Inv_rooms_delete _ r) in H1. exact H1.
    + rewrite on_disconnect_not_member by exact Hf. cbn [fst snd].
      apply Inv_delete_socket; [exact HI|]. now apply findRoom_not_member.
Qed.

Lemma reachable_Inv w : reachable uuidv4 w -> Inv w.
Proof.
  induction 1 as [|w e _ IH].
  - constructor; cbn; [constructor|discriminate|discriminate].
  - now apply Inv_handle.
Qed.

(** C1, amended.  A room with zero members can be in the registry: when
    a session at [host_type] submits 1, or a session at [host_passkey] a
    non-empty passkey, the handler ends with the new room in the registry
    and no member in it.  When a transport disconnect removes the last
    member of a room, the [disconnect] listener deletes the room in the
    same run, so that a lookup of that room id afterwards reports it
    absent. *)
Theorem room_empty_when_created_deleted_on_last_disconnect :
  (forall w sid sk st data,
      JsMap.get sid (sockets w) = Some sk -> state sk = Some st ->
      (step st = "host_type" /\ data = "1") \/
      (step st = "host_passkey" /\ data <> EmptyString) ->
      exists pk,
        JsMap.get (uuidv4 (uuid_calls w))
                  (rooms (snd (fst (handleResponse uuidv4 sid data w)))) =
        Some (mkRoom pk [])) /\
  (forall w sid r room,
      reachable uuidv4 w ->
      JsMap.get r (rooms w) = Some room ->
      JsMap.has sid (clients room) = true ->
      (forall c, JsMap.has c (clients room) = true -> c = sid) ->
      JsMap.has r (rooms (fst (handle uuidv4 w (Disconnect sid)))) = false).
Proof.
  split.
  { intros w sid sk st data Hsk Hst Hcase.
    destruct (handleResponse_host w sid sk st data Hsk Hst Hcase) as [pk [msg ->]].
    exists pk. cbn [fst snd rooms]. apply get_set_same. }
  intros w sid r room Hw Hr Hhas Honly.
  pose proof (reachable_Inv w Hw) as HI.
  apply has_true in Hhas. destruct Hhas as [u Hu].
  destruct (inv_members _ HI _ _ _ _ Hr Hu) as [Htu [sk [Hsk _]]].
  rewrite (handle_Disconnect _ _ _ Hsk). unfold out_of; cbn [fst snd].
  rewrite (on_disconnect_member _ sid r room u); cbn [rooms sockets uuid_calls]; auto.
  - cbn [fst snd rooms]. unfold without at 1. cbn [clients].
    rewrite (delete_only sid (clients room) Honly). cbn.
    apply has_false. apply get_delete_same.
  - eapply Inv_findRoom_member; eauto.
  - eapply inv_room_ids; eauto.
Qed.

(** C7.  For every session in the chat step that is a member of a room
    [r] of the registry under the name [u], a non-empty [chat_message]
    [data] changes nothing in the world and makes exactly one broadcast,
    of the [message] event with text "[<u>] <data>", to Socket.IO room
    [r]; it is delivered to every connection that is a member of the
    room, the sender included. *)
Theorem chat_message_broadcast_to_all_members w sid r room u data :
  reachable uuidv4 w ->
  socket_step w sid = Some "chat" ->
  JsMap.get r (rooms w) = Some room ->
  JsMap.get sid (clients room) = Some u ->
  data <> EmptyString ->
  handle uuidv4 w (ChatMessage sid data) =
    (w, [RoomEmit r (recipients r w) "message" ("[" ++ u ++ "] " ++ data)%string]) /\
  (forall c, JsMap.has c (clients room) = true ->
     In (c, "message", ("[" ++ u ++ "] " ++ data)%string)
        (all_deliveries (snd (handle uuidv4 w (ChatMessage sid data))))) /\
  In (sid, "message", ("[" ++ u ++ "] " ++ data)%string)
     (all_deliveries (snd (handle uuidv4 w (ChatMessage sid data)))).
Proof.
  intros Hw _ Hr Hu Hd.
  pose proof (reachable_Inv w Hw) as HI.
  destruct (inv_members _ HI _ _ _ _ Hr Hu) as [Htu [sk [Hsk [Hcl [Hst Hin]]]]].
  assert (Heq : handle uuidv4 w (ChatMessage sid data) =
    (w, [RoomEmit r (recipients r w) "message" ("[" ++ u ++ "] " ++ data)%string])).
  { rewrite (handle_ChatMessage _ _ _ _ Hsk Hcl).
    rewrite (on_chat_message_member w sid sk r room u data); auto.
    - eapply inv_room_ids; eauto.
    - now apply truthy_str_true. }
  assert (Hall : forall c, JsMap.has c (clients room) = true ->
     In (c, "message", ("[" ++ u ++ "] " ++ data)%string)
        (all_deliveries (snd (handle uuidv4 w (ChatMessage sid data))))).
  { intros c Hc. rewrite Heq. cbn. rewrite app_nil_r.
    apply has_true in Hc. destruct Hc as [uc Huc].
    destruct (inv_members _ HI _ _ _ _ Hr Huc) as [_ [skc [Hskc [_ [_ Hinc]]]]].
    apply (in_map (fun s => (s, "message", ("[" ++ u ++ "] " ++ data)%string))).
    eapply In_recipients; eauto. }
  split; [exact Heq|]. split; [exact Hall|].
  apply Hall. apply has_true. eauto.
Qed.

Lemma handleResponse_username_missing_room w sid sk st r data :
  JsMap.get sid (sockets w) = Some sk -> state sk = Some st ->
  step st = "username" -> roomId st = Some r -> JsMap.get r (rooms w) = None ->
  data <> EmptyString ->
  handleResponse uuidv4 sid data w =
  (tt,
   mkWorld (rooms w)
     (JsMap.set sid (mkSocket (Some (mkState "chat" (Some r))) (sock_roomId sk)
                              (sio_rooms sk) (closing sk)) (sockets w))
     (uuid_calls w),
   [SocketEmit sid "error" "Room no longer exists.";
    SocketEmit sid "prompt" prompt_choice;
    SocketEmit sid "message" "type and hit enter to send a message"]).
Proof.
  intros Hsk Hst Hstep Hrid Hr Hd. apply truthy_str_true in Hd.
  step_handler. rewrite Hsk, Hst, Hstep. cbn. rewrite Hd. cbn. rewrite Hrid, Hr.
  norm_sock Hsk. unfold set_step. now rewrite Hrid.
Qed.

(** C9.  For every live session at step [username] whose recorded room
    id [r] is not in the registry, a non-empty username makes
    [handleResponse] send the private error "Room no longer exists."
    (then the prompt of [choice] and the chat hint) and leave the session
    at step [chat] with the stale [roomId]; and after any further events
    [es] that do not close that connection, a non-empty [chat_message]
    from it produces only the private error
    "Not in a valid room or username not set." and changes nothing. *)
Theorem username_with_stale_room_ends_in_dead_chat w sid sk st r data es msg :
  reachable uuidv4 w ->
  JsMap.get sid (sockets w) = Some sk -> closing sk = false ->
  state sk = Some st -> step st = "username" -> roomId st = Some r ->
  JsMap.has r (rooms w) = false ->
  data <> EmptyString ->
  Forall (fun e => e <> Quit sid /\ e <> Disconnect sid) es ->
  msg <> EmptyString ->
  snd (handleResponse uuidv4 sid data w) =
    [SocketEmit sid "error" "Room no longer exists.";
     SocketEmit sid "prompt" prompt_choice;
     SocketEmit sid "message" "type and hit enter to send a message"] /\
  JsMap.get sid (sockets (snd (fst (handleResponse uuidv4 sid data w)))) =
    Some (mkSocket (Some (mkState "chat" (Some r))) (sock_roomId sk) (sio_rooms sk) false) /\
  handle uuidv4 (fst (run uuidv4 (snd (fst (handleResponse uuidv4 sid data w))) es))
         (ChatMessage sid msg) =
    (fst (run uuidv4 (snd (fst (handleResponse uuidv4 sid data w))) es),
     [SocketEmit sid "error" "Not in a valid room or username not set."]).
Proof.
  intros Hw Hsk Hcl Hst Hstep Hrid Hr Hd Hes Hmsg.
  apply has_false in Hr.
  pose proof (reachable_Inv w Hw) as HI.
  rewrite (handleResponse_username_missing_room w sid sk st r data Hsk Hst Hstep Hrid Hr Hd).
  cbn [fst snd sockets]. rewrite get_set_same, Hcl.
  split; [reflexivity|]. split; [reflexivity|].
  match goal with |- handle _ (fst (run _ ?w1 _)) _ = _ =>
    assert (Hstale : stale w1 sid)
  end.
  { split.
    - eexists _, _. cbn. rewrite get_set_same. repeat split; reflexivity.
    - cbn. eapply not_member_step; eauto. unfold cur_state. rewrite Hst, Hstep. discriminate. }
  pose proof (stale_run _ es sid Hstale Hes) as H2.
  set (w2 := fst (run uuidv4 _ es)) in *.
  pose proof H2 as [[sk2 [st2 [Hsk2 [Hcl2 _]]]] _].
  rewrite (handle_ChatMessage _ _ _ _ Hsk2 Hcl2).
  rewrite (on_chat_message_stale w2 sid msg H2); [reflexivity|].
  now apply truthy_str_true.
Qed.

(** C10.  For every connection that is a member of a room and quits,
    the [quit] listener broadcasts exactly one departure notice to its
    room and leaves the connection a member of no room; and when, after
    any events [es] other than its own disconnect, the transport reports
    the disconnect, the [disconnect] listener sends nothing and leaves
    the registry as it is: only the socket is dropped. *)
Theorem quit_then_disconnect_one_notice w sid r room u es :
  reachable uuidv4 w ->
  JsMap.get r (rooms w) = Some room ->
  JsMap.get sid (clients room) = Some u ->
  Forall (fun e => e <> Disconnect sid) es ->
  snd (handle uuidv4 w (Quit sid)) =
    [RoomEmit r (recipients r w) "message" ("*** " ++ u ++ " left the chat ***")%string] /\
  not_member (rooms (fst (handle uuidv4 w (Quit sid)))) sid /\
  handle uuidv4 (fst (run uuidv4 (fst (handle uuidv4 w (Quit sid))) es)) (Disconnect sid) =
    (mkWorld (rooms (fst (run uuidv4 (fst (handle uuidv4 w (Quit sid))) es)))
             (JsMap.delete sid (sockets (fst (run uuidv4 (fst (handle uuidv4 w (Quit sid))) es))))
             (uuid_calls (fst (run uuidv4 (fst (handle uuidv4 w (Quit sid))) es))),
     []).
Proof.
  intros Hw Hr Hu Hes.
  pose proof (reachable_Inv w Hw) as HI.
  destruct (inv_members _ HI _ _ _ _ Hr Hu) as [Htu [sk [Hsk [Hcl _]]]].
  assert (Hw1 : reachable uuidv4 (fst (handle uuidv4 w (Quit sid)))) by now constructor.
  assert (Hq : handle uuidv4 w (Quit sid) =
     (mkWorld (JsMap.set r (without sid room) (rooms w))
              (JsMap.set sid (quit_socket sk) (sockets w)) (uuid_calls w),
      [RoomEmit r (recipients r w) "message" (left_notice u)])).
  { rewrite (handle_Quit _ _ _ Hsk Hcl).
    rewrite (on_quit_member w sid sk r room u); auto.
    - eapply Inv_findRoom_member; eauto.
    - eapply inv_room_ids; eauto. }
  revert Hw1. rewrite Hq. cbn [fst snd]. intros Hw1.
  split; [reflexivity|]. split.
  { cbn [rooms]. eapply not_member_without; eauto. }
  set (w1 := mkWorld _ _ _) in *.
  assert (Hc1 : is_closing w1 sid).
  { eexists. split; [apply get_set_same|reflexivity]. }
  pose proof (is_closing_run w1 es sid Hc1 Hes) as [sk2 [Hsk2 Hcl2]].
  pose proof (reachable_run w1 es Hw1) as Hw2.
  set (w2 := fst (run uuidv4 w1 es)) in *.
  pose proof (reachable_Inv w2 Hw2) as HI2.
  rewrite (handle_Disconnect _ _ _ Hsk2). unfold out_of.
  rewrite on_disconnect_not_member; [reflexivity|].
  cbn [rooms]. apply not_member_findRoom; [|apply (inv_nodup _ HI2)].
  eapply not_member_closing; eauto.
Qed.

End ServerProofs.

(** * Sample runs: the theorems at work *)

Lemma sample_uuid_truthy : forall n, sample_uuid n <> EmptyString.
Proof. intros n. unfold sample_uuid. cbn. discriminate. Qed.

Lemma world_after_reachable es : reachable sample_uuid (world_after es).
Proof. unfold world_after. apply reachable_run. constructor. Qed.

(** C1, as stated, fails: once [s1] has chosen to host an open room, the
    handling of its event is complete and the registry holds the new room
    with no member. *)
Lemma created_room_has_no_members :
  reachable sample_uuid hosted_world /\
  JsMap.get (sample_uuid 0) (rooms hosted_world) = Some (mkRoom None []).
Proof. split; [apply world_after_reachable|vm_compute; reflexivity]. Qed.

(** The [quit] listener has no counterpart of the deletion in
    [disconnect]: bob, the last member, quits and his connection closes,
    and the room stays in the registry with no member. *)
Example quit_of_last_member_keeps_room :
  run sample_uuid bob_world [Quit "s2"; Disconnect "s2"] =
  (mkWorld [(sample_uuid 0, mkRoom None [])]
           [("s1", mkSocket (Some (mkState "host_type" None)) (Some (sample_uuid 0)) ["s1"] false)]
           1,
   [RoomEmit (sample_uuid 0) ["s2"] "message" "*** bob left the chat ***"]).
Proof. vm_compute. reflexivity. Qed.

Lemma room_deleted_on_last_disconnect_witness :
  JsMap.has (sample_uuid 0) (rooms (fst (handle sample_uuid bob_world (Disconnect "s2")))) = false.
Proof.
  apply (proj2 (room_empty_when_created_deleted_on_last_disconnect sample_uuid sample_uuid_truthy)
               bob_world "s2" (sample_uuid 0) (mkRoom None [("s2", "bob")])).
  - apply world_after_reachable.
  - vm_compute. reflexivity.
  - vm_compute. reflexivity.
  - intros c Hc. destruct (String.eqb_spec "s2" c) as [<-|Hne]; [reflexivity|].
    apply String.eqb_neq in Hne. unfold JsMap.has in Hc. cbn [JsMap.get clients] in Hc.
    rewrite Hne in Hc. discriminate Hc.
Defined.

(** C2 fails on the code.  After [s1] has answered 1 at [host_type] the
    room exists but the session is still at [host_type]: the name it
    types next is refused as a menu choice.  After it has set the passkey
    [secret] at [host_passkey] it is still at [host_passkey]: the name it
    types next creates a second room, with the name as passkey. *)
Theorem host_creates_room_but_keeps_step :
  (socket_step hosted_world "s1" = Some "host_type" /\
   JsMap.get (sample_uuid 0) (rooms hosted_world) = Some (mkRoom None []) /\
   handle sample_uuid hosted_world (Response "s1" "alice") =
     (hosted_world,
      [SocketEmit "s1" "error" "Invalid option. Choose 1 or 2.";
       SocketEmit "s1" "prompt" prompt_host_type])) /\
  (socket_step (world_after host_private_trace) "s1" = Some "host_passkey" /\
   rooms (world_after host_private_trace) = [(sample_uuid 0, mkRoom (Some "secret") [])] /\
   rooms (fst (handle sample_uuid (world_after host_private_trace) (Response "s1" "alice"))) =
     [(sample_uuid 0, mkRoom (Some "secret") []); (sample_uuid 1, mkRoom (Some "alice") [])] /\
   socket_step (fst (handle sample_uuid (world_after host_private_trace) (Response "s1" "alice")))
               "s1" = Some "host_passkey").
Proof. repeat split; vm_compute; reflexivity. Qed.

(** C3, as stated, fails: a chat message on a new connection, which is at
    step [choice], is answered with nothing at all. *)
Lemma chat_message_outside_chat_sends_no_error :
  socket_step (world_after [Connection "s1"]) "s1" = Some "choice" /\
  snd (handle sample_uuid (world_after [Connection "s1"]) (ChatMessage "s1" "hi")) = [].
Proof. split; vm_compute; reflexivity. Qed.

Lemma chat_message_outside_chat_is_ignored_witness :
  handle sample_uuid hosted_world (ChatMessage "s1" "hi") = (hosted_world, []).
Proof.
  apply chat_message_outside_chat_is_ignored. intros H. vm_compute in H. discriminate H.
Defined.

Lemma connect_passkey_advances_iff_match_witness :
  (socket_step (snd (fst (handleResponse sample_uuid "s2" "wrong" passkey_world))) "s2"
     = Some "username"
   <-> passkey_matches passkey_world (mkState "connect_passkey" (Some (sample_uuid 0))) "wrong") /\
  (~ passkey_matches passkey_world (mkState "connect_passkey" (Some (sample_uuid 0))) "wrong" ->
   handleResponse sample_uuid "s2" "wrong" passkey_world =
     (tt, passkey_world,
      [SocketEmit "s2" "error" "Invalid passkey.";
       SocketEmit "s2" "prompt" prompt_connect_passkey]) /\
   socket_step passkey_world "s2" = Some "connect_passkey").
Proof.
  apply (connect_passkey_advances_iff_match sample_uuid passkey_world "s2"
           (mkSocket (Some (mkState "connect_passkey" (Some (sample_uuid 0)))) None ["s2"] false)).
  - vm_compute. reflexivity.
  - reflexivity.
  - reflexivity.
Defined.

Lemma step_is_always_a_stage_witness :
  exists st,
    state (mkSocket (Some (mkState "host_type" None)) (Some (sample_uuid 0)) ["s1"] false)
      = Some st /\ In (step st) stages.
Proof.
  apply (step_is_always_a_stage sample_uuid hosted_world "s1").
  - apply world_after_reachable.
  - vm_compute. reflexivity.
Defined.

Lemma chat_message_outside_chat_reaches_nobody_witness :
  fst (handle sample_uuid passkey_world (ChatMessage "s2" "hi")) = passkey_world /\
  forall c ev msg,
    c <> "s2" ->
    ~ In (c, ev, msg)
         (all_deliveries (snd (handle sample_uuid passkey_world (ChatMessage "s2" "hi")))).
Proof.
  apply chat_message_outside_chat_reaches_nobody. intros H. vm_compute in H. discriminate H.
Defined.

Lemma chat_message_broadcast_to_all_members_witness :
  handle sample_uuid bob_carol_world (ChatMessage "s2" "hi") =
    (bob_carol_world,
     [RoomEmit (sample_uuid 0) (recipients (sample_uuid 0) bob_carol_world) "message"
        ("[" ++ "bob" ++ "] " ++ "hi")%string]) /\
  (forall c,
     JsMap.has c [("s2", "bob"); ("s3", "carol")] = true ->
     In (c, "message", ("[" ++ "bob" ++ "] " ++ "hi")%string)
        (all_deliveries (snd (handle sample_uuid bob_carol_world (ChatMessage "s2" "hi"))))) /\
  In ("s2", "message", ("[" ++ "bob" ++ "] " ++ "hi")%string)
     (all_deliveries (snd (handle sample_uuid bob_carol_world (ChatMessage "s2" "hi")))).
Proof.
  apply (chat_message_broadcast_to_all_members sample_uuid sample_uuid_truthy bob_carol_world
           "s2" (sample_uuid 0) (mkRoom None [("s2", "bob"); ("s3", "carol")]) "bob" "hi").
  - apply world_after_reachable.
  - vm_compute. reflexivity.
  - vm_compute. reflexivity.
  - vm_compute. reflexivity.
  - discriminate.
Defined.

(** C8 fails on the code.  bob is in chat and sends a [response]: he is
    told of an invalid state and given the prompt of [choice], but his
    step is still [chat] (the world has not changed at all), so what he
    answers to that prompt is met by the same error. *)
Theorem response_in_chat_keeps_step :
  socket_step bob_world "s2" = Some "chat" /\
  handle sample_uuid bob_world (Response "s2" "1") =
    (bob_world,
     [SocketEmit "s2" "error" "Invalid state. Please reconnect.";
      SocketEmit "s2" "prompt" prompt_choice]).
Proof. split; vm_compute; reflexivity. Qed.

Lemma username_with_stale_room_witness :
  snd (handleResponse sample_uuid "s2" "bob" room_gone_world) =
    [SocketEmit "s2" "error" "Room no longer exists.";
     SocketEmit "s2" "prompt" prompt_choice;
     SocketEmit "s2" "message" "type and hit enter to send a message"] /\
  JsMap.get "s2" (sockets (snd (fst (handleResponse sample_uuid "s2" "bob" room_gone_world)))) =
    Some (mkSocket (Some (mkState "chat" (Some (sample_uuid 0)))) None ["s2"] false) /\
  handle sample_uuid
         (fst (run sample_uuid (snd (fst (handleResponse sample_uuid "s2" "bob" room_gone_world)))
                   [Response "s1" "1"; Response "s2" "2"]))
         (ChatMessage "s2" "hi") =
    (fst (run sample_uuid (snd (fst (handleResponse sample_uuid "s2" "bob" room_gone_world)))
              [Response "s1" "1"; Response "s2" "2"]),
     [SocketEmit "s2" "error" "Not in a valid room or username not set."]).
Proof.
  apply (username_with_stale_room_ends_in_dead_chat sample_uuid sample_uuid_truthy
           room_gone_world "s2"
           (mkSocket (Some (mkState "username" (Some (sample_uuid 0)))) None ["s2"] false)
           (mkState "username" (Some (sample_uuid 0))) (sample_uuid 0) "bob"
           [Response "s1" "1"; Response "s2" "2"] "hi").
  - apply world_after_reachable.
  - vm_compute. reflexivity.
  - reflexivity.
  - reflexivity.
  - reflexivity.
  - reflexivity.
  - vm_compute. reflexivity.
  - discriminate.
  - repeat constructor; discriminate.
  - discriminate.
Defined.

Lemma quit_then_disconnect_one_notice_witness :
  snd (handle sample_uuid bob_carol_world (Quit "s2")) =
    [RoomEmit (sample_uuid 0) (recipients (sample_uuid 0) bob_carol_world) "message"
       ("*** " ++ "bob" ++ " left the chat ***")%string] /\
  not_member (rooms (fst (handle sample_uuid bob_carol_world (Quit "s2")))) "s2" /\
  handle sample_uuid
         (fst (run sample_uuid (fst (handle sample_uuid bob_carol_world (Quit "s2")))
                   [ChatMessage "s3" "bye"; Response "s2" "2"]))
         (Disconnect "s2") =
    (mkWorld
       (rooms (fst (run sample_uuid (fst (handle sample_uuid bob_carol_world (Quit "s2")))
                        [ChatMessage "s3" "bye"; Response "s2" "2"])))
       (JsMap.delete "s2"
          (sockets (fst (run sample_uuid (fst (handle sample_uuid bob_carol_world (Quit "s2")))
                             [ChatMessage "s3" "bye"; Response "s2" "2"]))))
       (uuid_calls (fst (run sample_uuid (fst (handle sample_uuid bob_carol_world (Quit "s2")))
                             [ChatMessage "s3" "bye"; Response "s2" "2"]))),
     []).
Proof.
  apply (quit_then_disconnect_one_notice sample_uuid sample_uuid_truthy bob_carol_world
           "s2" (sample_uuid 0) (mkRoom None [("s2", "bob"); ("s3", "carol")]) "bob"
           [ChatMessage "s3" "bye"; Response "s2" "2"]).
  - apply world_after_reachable.
  - vm_compute. reflexivity.
  - vm_compute. reflexivity.
  - repeat constructor; discriminate.
Defined.

(** * The rest of the server, and more about the handlers *)

Section ServerMore.

Variable uuidv4 : nat -> string.

(** ** One run of [handleResponse], case by case *)

Lemma handleResponse_detail sid data w sk :
  JsMap.get sid (sockets w) = Some sk ->
  resp_detail uuidv4 sid data w sk (snd (fst (handleResponse uuidv4 sid data w))).
Proof.
  intros Hsk. step_handler. rewrite Hsk. fold (cur_state sk).
  destruct (String.eqb_spec (step (cur_state sk)) "choice") as [E1|E1].
  { destruct (String.eqb_spec data "1") as [D1|D1];
      [|destruct (String.eqb_spec data "2") as [D2|D2]]; cbn; rewrite ?Hsk.
    - apply rd_menu. auto.
    - apply rd_menu. auto.
    - apply rd_keep. }
  destruct (String.eqb_spec (step (cur_state sk)) "host_type") as [E2|E2].
  { destruct (String.eqb_spec data "1") as [D1|D1];
      [|destruct (String.eqb_spec data "2") as [D2|D2]]; cbn; rewrite ?Hsk; cbn.
    - norm_sock Hsk. apply rd_create. auto.
    - apply rd_menu. auto.
    - apply rd_keep. }
  destruct (String.eqb_spec (step (cur_state sk)) "host_passkey") as [E3|E3].
  { destruct (truthy_str data) eqn:Hd; cbn; rewrite ?Hsk; cbn.
    - norm_sock Hsk. apply rd_create. right. apply truthy_str_true in Hd. auto.
    - apply rd_keep. }
  destruct (String.eqb_spec (step (cur_state sk)) "connect_room") as [E4|E4].
  { destruct (JsMap.get data (rooms w)) as [room|] eqn:Hroom.
    - replace (snd (fst _)) with
        (mkWorld (rooms w)
           (JsMap.set sid
              (mkSocket (Some (mkState (if truthy (passkey room) then "connect_passkey"
                                        else "username") (Some data)))
                        (sock_roomId sk) (sio_rooms sk) (closing sk)) (sockets w))
           (uuid_calls w)).
      + now apply rd_room_id.
      + destruct (truthy (passkey room)); cbn; rewrite ?Hsk; reflexivity.
    - cbn; rewrite ?Hsk; cbn. apply rd_keep. }
  destruct (String.eqb_spec (step (cur_state sk)) "connect_passkey") as [E5|E5].
  { destruct (passkey_mismatch _ _) eqn:Hm; cbn; rewrite ?Hsk; cbn.
    - apply rd_keep.
    - apply (passkey_mismatch_false w (cur_state sk) data) in Hm.
      destruct Hm as [room [Hr Hp]]. unfold rooms_get in Hr.
      destruct (roomId (cur_state sk)) as [r|] eqn:Hrid; [|discriminate].
      unfold set_step. rewrite Hrid. eapply rd_passkey; eauto. }
  destruct (String.eqb_spec (step (cur_state sk)) "username") as [E6|E6].
  { destruct (truthy_str data) eqn:Hd; cbn; rewrite ?Hsk; cbn.
    - apply truthy_str_true in Hd.
      destruct (roomId (cur_state sk)) as [r|] eqn:Hr.
      + destruct (JsMap.get r (rooms w)) as [room|] eqn:Hroom; cbn; rewrite ?Hsk; cbn.
        * norm_sock Hsk.
          assert (Hst : set_step (cur_state sk) "chat" = chat_state r).
          { unfold set_step, chat_state. now rewrite Hr. }
          rewrite Hst. eapply rd_join; eauto.
        * norm_sock Hsk. apply rd_join_missing; auto. unfold rooms_get. now rewrite Hr.
      + cbn. rewrite ?Hsk; cbn. norm_sock Hsk. apply rd_join_missing; auto.
        unfold rooms_get. now rewrite Hr.
    - apply rd_keep. }
  cbn. rewrite Hsk. cbn. norm_sock Hsk. apply rd_keep.
Qed.
(** ** What an event does to the registry *)

Lemma on_quit_rooms sid w :
  uuid_calls (snd (fst (on_quit sid w))) = uuid_calls w /\
  (rooms (snd (fst (on_quit sid w))) = rooms w \/
   exists r room, JsMap.get r (rooms w) = Some room /\
     rooms (snd (fst (on_quit sid w))) = JsMap.set r (without sid room) (rooms w)).
Proof.
  unfold_leave.
  destruct (JsMap.get sid (sockets w)) as [sk|] eqn:Hc;
    (destruct (findRoomForSocket (rooms w) sid) as [r|]; [|norm_sock Hc; auto]);
    (destruct (truthy_str r); [|norm_sock Hc; auto]);
    (destruct (JsMap.get r (rooms w)) as [room|] eqn:Hr; [|norm_sock Hc; auto]);
    (destruct (JsMap.get sid (clients room)) as [u|]; [|norm_sock Hc; auto]);
    (destruct (truthy_str u); [|norm_sock Hc; auto]);
    norm_sock Hc; split; auto; right; exists r, room; auto.
Qed.

Lemma on_disconnect_rooms sid w :
  uuid_calls (snd (fst (on_disconnect sid w))) = uuid_calls w /\
  (rooms (snd (fst (on_disconnect sid w))) = rooms w \/
   exists r room, JsMap.get r (rooms w) = Some room /\
     (rooms (snd (fst (on_disconnect sid w))) = JsMap.set r (without sid room) (rooms w) \/
      (JsMap.delete sid (clients room) = [] /\
       rooms (snd (fst (on_disconnect sid w))) =
       JsMap.delete r (JsMap.set r (without sid room) (rooms w))))).
Proof.
  unfold_leave.
  destruct (findRoomForSocket (rooms w) sid) as [r|]; [|auto].
  destruct (truthy_str r); [|auto].
  destruct (JsMap.get r (rooms w)) as [room|] eqn:Hr; [|auto].
  destruct (JsMap.get sid (clients room)) as [u|]; [|auto].
  destruct (truthy_str u); [|auto]. cbn. unfold JsMap.size.
  destruct (JsMap.delete sid (clients room)) as [|p l] eqn:Hd; cbn.
  - split; auto. right. exists r, room. split; auto. right. unfold without. rewrite Hd. auto.
  - split; auto. right. exists r, room. split; auto. left. unfold without. now rewrite Hd.
Qed.

Lemma socket_step_cur w sid sk s :
  JsMap.get sid (sockets w) = Some sk -> step (cur_state sk) = s -> s <> "choice" ->
  socket_step w sid = Some s.
Proof.
  intros Hsk Hs Hne. unfold socket_step, cur_state in *. rewrite Hsk.
  destruct (state sk); [now rewrite Hs|]. cbn in Hs. congruence.
Qed.

Lemma handle_registry_change w e :
  registry_change uuidv4 w e (rooms (fst (handle uuidv4 w e)))
                  (uuid_calls (fst (handle uuidv4 w e))).
Proof.
  destruct (event_cases w e) as [Hi|Hc].
  { rewrite (handle_ignored uuidv4) by exact Hi. apply rc_same. }
  destruct e as [sid|sid data|sid data|sid|sid].
  - rewrite handle_Connection by exact Hc. cbn [fst rooms uuid_calls]. apply rc_same.
  - destruct Hc as [sk [Hsk Hcl]]. rewrite (handle_Response _ _ _ _ _ Hsk Hcl).
    unfold out_of; cbn [fst snd].
    generalize (handleResponse_detail sid (trim data) w sk Hsk).
    generalize (snd (fst (handleResponse uuidv4 sid (trim data) w))).
    intros w' [|s' _|pk Hpk|room _ _|r room _ _ _ _|r room Hstep Hrid Hr Hd|_ _ _];
      cbn [rooms uuid_calls]; try apply rc_same.
    + apply rc_create.
      destruct Hpk as [[Hs [Hd ->]]|[Hs [Hd ->]]]; [left|right];
        (split; [eapply socket_step_cur; eauto; discriminate|auto]).
    + apply rc_join; auto. eapply socket_step_cur; eauto. discriminate.
  - destruct Hc as [sk [Hsk Hcl]]. rewrite (handle_ChatMessage _ _ _ _ _ Hsk Hcl).
    unfold out_of; cbn [fst snd]. rewrite on_chat_message_world. apply rc_same.
  - destruct Hc as [sk [Hsk Hcl]]. rewrite (handle_Quit _ _ _ _ Hsk Hcl).
    unfold out_of; cbn [fst snd].
    destruct (on_quit_rooms sid w) as [-> [->|[r [room [Hr ->]]]]]; [apply rc_same|].
    eapply rc_leave; eauto.
  - destruct Hc as [sk Hsk]. rewrite (handle_Disconnect _ _ _ _ Hsk).
    unfold out_of; cbn [fst snd].
    destruct (on_disconnect_rooms sid (mkWorld (rooms w) (JsMap.delete sid (sockets w)) (uuid_calls w)))
      as [-> [->|[r [room [Hr [->|[Hd ->]]]]]]]; cbn [rooms uuid_calls] in *.
    + apply rc_same.
    + eapply rc_leave; eauto.
    + eapply rc_last; eauto.
Qed.

Lemma keys_set_incl {V} k (v : V) m x :
  In x (JsMap.keys (JsMap.set k v m)) -> x = k \/ In x (JsMap.keys m).
Proof.
  destruct (JsMap.get k m) as [v0|] eqn:Hg.
  - rewrite keys_set_In by congruence. auto.
  - rewrite keys_set_new by exact Hg. intros H. apply in_app_or in H.
    destruct H as [H|[<-|[]]]; auto.
Qed.

Lemma keys_set_present {V} k (v v0 : V) m :
  JsMap.get k m = Some v0 -> JsMap.keys (JsMap.set k v m) = JsMap.keys m.
Proof. intros H. apply keys_set_In. congruence. Qed.

(** X1.  The [quit] listener never takes a room out of the registry, not
    even one it has just emptied: the room ids are the same before and
    after, in the same order. *)
Theorem quit_keeps_every_room w sid :
  JsMap.keys (rooms (fst (handle uuidv4 w (Quit sid)))) = JsMap.keys (rooms w).
Proof.
  pose proof (handle_registry_change w (Quit sid)) as H.
  remember (Quit sid) as e eqn:He.
  destruct H as [e|c data pk _|c data r room _ _ _|e c r room _ Hr|c r room _ _];
    try discriminate He.
  - reflexivity.
  - eapply keys_set_present; eauto.
Qed.

(** X2.  A room id enters the registry only as the value of the next
    [uuidv4()] call, and only on a [response] of a session that is at
    [host_type] or [host_passkey]: no other event adds a room. *)
Theorem room_ids_come_from_hosting w e r :
  In r (JsMap.keys (rooms (fst (handle uuidv4 w e)))) ->
  ~ In r (JsMap.keys (rooms w)) ->
  r = uuidv4 (uuid_calls w) /\
  exists sid data,
    e = Response sid data /\
    (socket_step w sid = Some "host_type" \/ socket_step w sid = Some "host_passkey").
Proof.
  intros Hin Hnot.
  destruct (handle_registry_change w e)
    as [e|c data pk Hpk|c data r0 room _ Hr _|e c r0 room _ Hr|c r0 room Hr _].
  - contradiction.
  - apply keys_set_incl in Hin. destruct Hin as [->|Hin]; [|contradiction].
    split; [reflexivity|]. exists c, data. split; [reflexivity|].
    destruct Hpk as [[Hs _]|[Hs _]]; auto.
  - rewrite (keys_set_present _ _ _ _ Hr) in Hin. contradiction.
  - rewrite (keys_set_present _ _ _ _ Hr) in Hin. contradiction.
  - apply keys_delete_incl in Hin. rewrite (keys_set_present _ _ _ _ Hr) in Hin.
    contradiction.
Qed.

(** ** Passkeys are never empty *)

Lemma passkeys_ok_handle w e :
  passkeys_ok (rooms w) -> passkeys_ok (rooms (fst (handle uuidv4 w e))).
Proof.
  intros Hok.
  destruct (handle_registry_change w e)
    as [e|c data pk Hpk|c data r0 room _ Hr _|e c r0 room _ Hr|c r0 room Hr _];
    intros r1 room1 pk1.
  - apply Hok.
  - destruct (String.eqb_spec (uuidv4 (uuid_calls w)) r1) as [<-|Hne].
    + rewrite get_set_same. intros H Hp. injection H as <-. cbn in Hp.
      destruct Hpk as [[_ [_ ->]]|[_ [Hd ->]]]; [discriminate|]. now injection Hp as <-.
    + rewrite get_set_other by exact Hne. apply Hok.
  - destruct (String.eqb_spec r0 r1) as [<-|Hne].
    + rewrite get_set_same. intros H Hp. injection H as <-. cbn in Hp. eapply Hok; eauto.
    + rewrite get_set_other by exact Hne. apply Hok.
  - destruct (String.eqb_spec r0 r1) as [<-|Hne].
    + rewrite get_set_same. intros H Hp. injection H as <-. cbn in Hp. eapply Hok; eauto.
    + rewrite get_set_other by exact Hne. apply Hok.
  - destruct (String.eqb_spec r0 r1) as [<-|Hne].
    + now rewrite get_delete_same.
    + rewrite get_delete_other, get_set_other by exact Hne. apply Hok.
Qed.

Lemma reachable_passkeys_ok w : reachable uuidv4 w -> passkeys_ok (rooms w).
Proof.
  induction 1 as [|w e _ IH].
  - intros r room pk H. discriminate H.
  - now apply passkeys_ok_handle.
Qed.

(** X3.  In every reachable world a room's passkey is either [null] or a
    non-empty string, so the test [if (room.passkey)] of the
    [connect_room] step is false for the open rooms and for no other. *)
Theorem passkey_is_null_or_not_empty w r room :
  reachable uuidv4 w ->
  JsMap.get r (rooms w) = Some room ->
  (forall pk, passkey room = Some pk -> pk <> EmptyString) /\
  (truthy (passkey room) = false <-> passkey room = None).
Proof.
  intros Hw Hr. pose proof (reachable_passkeys_ok w Hw r room) as Hok.
  split; [intros pk Hp; eapply Hok; eauto|].
  destruct (passkey room) as [pk|] eqn:Hp; cbn.
  - split; [|discriminate]. intros Ht. exfalso.
    apply (Hok pk Hr eq_refl). unfold truthy_str in Ht.
    destruct (String.eqb_spec pk EmptyString); [assumption|discriminate].
  - split; reflexivity.
Qed.

(** ** Room ids are values of earlier [uuidv4()] calls *)

Lemma ids_issued_handle w e :
  ids_issued uuidv4 w -> ids_issued uuidv4 (fst (handle uuidv4 w e)).
Proof.
  intros Hiss r. unfold ids_issued in Hiss.
  destruct (handle_registry_change w e)
    as [e|c data pk Hpk|c data r0 room _ Hr _|e c r0 room _ Hr|c r0 room Hr _]; intros Hin.
  - auto.
  - apply keys_set_incl in Hin. destruct Hin as [->|Hin].
    + exists (uuid_calls w). split; [apply Nat.lt_succ_diag_r|reflexivity].
    + destruct (Hiss r Hin) as [k [Hk ->]]. exists k. split; [|reflexivity].
      now apply Nat.lt_lt_succ_r.
  - rewrite (keys_set_present _ _ _ _ Hr) in Hin. auto.
  - rewrite (keys_set_present _ _ _ _ Hr) in Hin. auto.
  - apply keys_delete_incl in Hin. rewrite (keys_set_present _ _ _ _ Hr) in Hin. auto.
Qed.

Lemma reachable_ids_issued w : reachable uuidv4 w -> ids_issued uuidv4 w.
Proof.
  induction 1 as [|w e _ IH].
  - intros r [].
  - now apply ids_issued_handle.
Qed.

(** ** Sessions and the events of other sockets *)

(** X4.  An event that arrives on another socket changes nothing in the
    record of a session (its state, its Socket.IO rooms, whether it is
    closing), and cannot make it a member of a room. *)
Theorem events_of_others_leave_session_alone w e sid :
  event_socket e <> sid ->
  JsMap.get sid (sockets (fst (handle uuidv4 w e))) = JsMap.get sid (sockets w) /\
  (not_member (rooms w) sid -> not_member (rooms (fst (handle uuidv4 w e))) sid).
Proof.
  intros Hne. split.
  - now apply handle_other_socket.
  - now apply handle_other_not_member.
Qed.

Lemma own_event_cases w e sid :
  event_socket e = sid -> stays_open sid e ->
  ignored w e \/
  (exists sk data, e = Response sid data /\ JsMap.get sid (sockets w) = Some sk /\
                   closing sk = false) \/
  (exists sk data, e = ChatMessage sid data /\ JsMap.get sid (sockets w) = Some sk /\
                   closing sk = false) \/
  (e = Connection sid /\ JsMap.get sid (sockets w) = None).
Proof.
  intros Heq [Hq Hd]. destruct (event_cases w e) as [Hi|Hc]; [now left|right].
  destruct e as [c|c data|c data|c|c]; cbn in Heq; subst c; try congruence.
  - right. right. auto.
  - left. destruct Hc as [sk [Hsk Hcl]]. exists sk, data. auto.
  - right. left. destruct Hc as [sk [Hsk Hcl]]. exists sk, data. auto.
Qed.

Lemma socket_step_set m sid sk' st' rs n :
  state sk' = Some st' ->
  socket_step (mkWorld rs (JsMap.set sid sk' m) n) sid = Some (step st').
Proof. intros H. unfold socket_step. cbn. now rewrite get_set_same, H. Qed.

Lemma hosting_handle w e sid :
  is_hosting w sid -> stays_open sid e -> is_hosting (fst (handle uuidv4 w e)) sid.
Proof.
  intros [s [Hs Hh]] Hopen.
  destruct (String.eqb_spec (event_socket e) sid) as [Heq|Hother].
  2:{ exists s. split; [|exact Hh]. unfold socket_step in *.
      now rewrite handle_other_socket. }
  destruct (own_event_cases w e sid Heq Hopen)
    as [Hi|[[sk [data [-> [Hsk Hcl]]]]|[[sk [data [-> [Hsk Hcl]]]]|[-> Hnone]]]].
  - rewrite (handle_ignored uuidv4) by exact Hi. now exists s.
  - rewrite (handle_Response _ _ _ _ _ Hsk Hcl). unfold out_of; cbn [fst snd].
    assert (Hcur : step (cur_state sk) = s).
    { unfold socket_step in Hs. rewrite Hsk in Hs. unfold cur_state.
      destruct (state sk); [now injection Hs|discriminate]. }
    assert (Hnot : forall s0, ~ hosting s0 -> step (cur_state sk) <> s0).
    { intros s0 Hn He. apply Hn. rewrite <- He, Hcur. exact Hh. }
    generalize (handleResponse_detail sid (trim data) w sk Hsk).
    generalize (snd (fst (handleResponse uuidv4 sid (trim data) w))).
    intros w' [|s' Hm|pk _|room Hst _|r room Hst _ _ _|r room Hst _ _ _|Hst _ _].
    + exists s. rewrite (socket_step_set _ _ _ (cur_state sk)) by reflexivity.
      now rewrite Hcur.
    + exists s'. rewrite (socket_step_set _ _ _ (set_step (cur_state sk) s')) by reflexivity.
      split; [reflexivity|].
      destruct Hm as [[_ [_ ->]]|[[Hc _]|[_ [_ ->]]]]; unfold hosting; auto.
      exfalso. revert Hc. apply Hnot. unfold hosting. intros [H|H]; discriminate H.
    + exists s. rewrite (socket_step_set _ _ _ (cur_state sk)) by reflexivity.
      now rewrite Hcur.
    + exfalso. revert Hst. apply Hnot. unfold hosting. intros [H|H]; discriminate H.
    + exfalso. revert Hst. apply Hnot. unfold hosting. intros [H|H]; discriminate H.
    + exfalso. revert Hst. apply Hnot. unfold hosting. intros [H|H]; discriminate H.
    + exfalso. revert Hst. apply Hnot. unfold hosting. intros [H|H]; discriminate H.
  - rewrite (handle_ChatMessage _ _ _ _ _ Hsk Hcl). unfold out_of; cbn [fst snd].
    rewrite on_chat_message_world. now exists s.
  - unfold socket_step in Hs. rewrite Hnone in Hs. discriminate.
Qed.

(** X5.  A session that is at [host_type] or [host_passkey] is still at
    one of these two steps after any events that do not end its
    connection: whatever it sends, it reaches neither [username] nor
    [chat]. *)
Theorem hosting_session_never_gets_further w sid es :
  is_hosting w sid -> Forall (stays_open sid) es ->
  is_hosting (fst (run uuidv4 w es)) sid.
Proof.
  intros Hh Hes. revert w Hh. induction Hes as [|e es He _ IH]; intros w Hh; cbn; [exact Hh|].
  pose proof (hosting_handle w e sid Hh He) as H1.
  destruct (handle uuidv4 w e) as [w1 o1]. specialize (IH w1 H1).
  destruct (run uuidv4 w1 es) as [w2 o2]. exact IH.
Qed.

Lemma socket_eta sk :
  mkSocket (state sk) (sock_roomId sk) (sio_rooms sk) (closing sk) = sk.
Proof. now destruct sk. Qed.

Lemma chat_session_handle w e sid sk st :
  JsMap.get sid (sockets w) = Some sk -> closing sk = false ->
  state sk = Some st -> step st = "chat" -> stays_open sid e ->
  JsMap.get sid (sockets (fst (handle uuidv4 w e))) = Some sk.
Proof.
  intros Hsk Hcl Hst Hstep Hopen.
  destruct (String.eqb_spec (event_socket e) sid) as [Heq|Hother].
  2:{ now rewrite handle_other_socket. }
  assert (Hcur : cur_state sk = st) by (unfold cur_state; now rewrite Hst).
  destruct (own_event_cases w e sid Heq Hopen)
    as [Hi|[[sk' [data [-> [Hsk' _]]]]|[[sk' [data [-> [Hsk' _]]]]|[-> Hnone]]]].
  - now rewrite (handle_ignored uuidv4) by exact Hi.
  - rewrite (handle_Response _ _ _ _ _ Hsk Hcl). unfold out_of; cbn [fst snd].
    generalize (handleResponse_detail sid (trim data) w sk Hsk).
    generalize (snd (fst (handleResponse uuidv4 sid (trim data) w))).
    intros w' [|s' Hm|pk Hm|room Hs _|r room Hs _ _ _|r room Hs _ _ _|Hs _ _];
      rewrite ?Hcur in *; try (rewrite Hstep in Hs; discriminate Hs).
    + cbn. rewrite get_set_same, <- Hst. now rewrite socket_eta.
    + rewrite Hstep in Hm. destruct Hm as [[H _]|[[H _]|[H _]]]; discriminate H.
    + rewrite Hstep in Hm. destruct Hm as [[H _]|[H _]]; discriminate H.
  - rewrite (handle_ChatMessage _ _ _ _ _ Hsk Hcl). unfold out_of; cbn [fst snd].
    now rewrite on_chat_message_world.
  - congruence.
Qed.

(** X6.  Once a session is at step [chat], nothing that is sent changes
    it: after any events that do not end its connection its record is the
    same, with the same state ([step] and [roomId]) and the same
    Socket.IO rooms.  A [response] in chat does not bring it back to
    [choice]. *)
Theorem chat_session_is_never_changed w sid sk st es :
  JsMap.get sid (sockets w) = Some sk -> closing sk = false ->
  state sk = Some st -> step st = "chat" ->
  Forall (stays_open sid) es ->
  JsMap.get sid (sockets (fst (run uuidv4 w es))) = Some sk.
Proof.
  intros Hsk Hcl Hst Hstep Hes. revert w Hsk.
  induction Hes as [|e es He _ IH]; intros w Hsk; cbn; [exact Hsk|].
  pose proof (chat_session_handle w e sid sk st Hsk Hcl Hst Hstep He) as H1.
  destruct (handle uuidv4 w e) as [w1 o1]. specialize (IH w1 H1).
  destruct (run uuidv4 w1 es) as [w2 o2]. exact IH.
Qed.

(** ** Rejected inputs, blank inputs, chat messages *)

Lemma run_rejected_inputs w sid sk st ds :
  JsMap.get sid (sockets w) = Some sk -> closing sk = false -> state sk = Some st ->
  Forall (fun d => exists err prompt, rejected w st (trim d) err prompt) ds ->
  fst (run uuidv4 w (map (Response sid) ds)) = w /\
  Forall (fun eff => exists ev msg, eff = SocketEmit sid ev msg)
         (snd (run uuidv4 w (map (Response sid) ds))) /\
  length (snd (run uuidv4 w (map (Response sid) ds))) = 2 * length ds.
Proof.
  intros Hsk Hcl Hst Hds. induction Hds as [|d ds [err [p Hrej]] _ IH]; cbn [map run].
  - cbn. auto.
  - rewrite (handle_Response _ _ _ _ _ Hsk Hcl).
    rewrite (handleResponse_rejected uuidv4 w sid sk st (trim d) err p Hsk Hst Hrej).
    unfold out_of; cbn [fst snd].
    destruct (run uuidv4 w (map (Response sid) ds)) as [w2 o2]. cbn [fst snd] in *.
    destruct IH as [-> [Hall Hlen]]. split; [reflexivity|]. split.
    + cbn. repeat constructor; eauto.
    + cbn. rewrite Hlen. cbn. now rewrite <- plus_n_Sm.
Qed.


(** X8.  A [chat_message] never changes the world, whoever sends it and
    whatever the text; and an empty text is answered with nothing at all,
    in chat too. *)
Theorem chat_message_changes_nothing w sid :
  (forall data, fst (handle uuidv4 w (ChatMessage sid data)) = w) /\
  snd (handle uuidv4 w (ChatMessage sid EmptyString)) = [].
Proof.
  split.
  - intros data. destruct (event_cases w (ChatMessage sid data)) as [Hi|[sk [Hsk Hcl]]].
    + now rewrite (handle_ignored uuidv4).
    + rewrite (handle_ChatMessage _ _ _ _ _ Hsk Hcl). unfold out_of; cbn [fst snd].
      apply on_chat_message_world.
  - destruct (event_cases w (ChatMessage sid EmptyString)) as [Hi|[sk [Hsk Hcl]]].
    + now rewrite (handle_ignored uuidv4).
    + rewrite (handle_ChatMessage _ _ _ _ _ Hsk Hcl).
      unfold out_of, on_chat_message, bind, get_world, ret. cbn. rewrite Hsk.
      destruct (state sk) as [st|]; [|reflexivity].
      rewrite andb_false_r. reflexivity.
Qed.

Lemma trimStart_blank s : blank s = true -> trimStart s = EmptyString.
Proof.
  induction s as [|c s IH]; cbn; [reflexivity|].
  destruct (is_white_space c); cbn; [exact IH|discriminate].
Qed.

Lemma trimStart_head s c t : trimStart s = String c t -> is_white_space c = false.
Proof.
  induction s as [|c0 s IH]; cbn; [discriminate|].
  destruct (is_white_space c0) eqn:Hc0; [exact IH|].
  intros H. injection H as <- _. exact Hc0.
Qed.

Lemma trimStart_empty s : trimStart s = EmptyString -> blank s = true.
Proof.
  induction s as [|c s IH]; cbn; [reflexivity|].
  destruct (is_white_space c); cbn; [exact IH|discriminate].
Qed.

Lemma trim_empty_iff_blank s : trim s = EmptyString <-> blank s = true.
Proof.
  unfold trim. split.
  - destruct (trimStart s) as [|c t] eqn:Hs; [intros _; now apply trimStart_empty|].
    apply trimStart_head in Hs. cbn. rewrite Hs.
    destruct (trimEnd t); discriminate.
  - intros Hb. now rewrite trimStart_blank.
Qed.

(** X9.  A payload of white space only counts as empty: at [username] and
    at [host_passkey] it is rejected with the error of the empty field
    and the prompt again, and the world is unchanged. *)
Theorem blank_input_is_rejected_as_empty w sid sk st d :
  JsMap.get sid (sockets w) = Some sk -> closing sk = false -> state sk = Some st ->
  blank d = true ->
  (step st = "username" ->
   handle uuidv4 w (Response sid d) =
   (w, [SocketEmit sid "error" "Username cannot be empty.";
        SocketEmit sid "prompt" prompt_username])) /\
  (step st = "host_passkey" ->
   handle uuidv4 w (Response sid d) =
   (w, [SocketEmit sid "error" "Passkey cannot be empty.";
        SocketEmit sid "prompt" prompt_host_passkey])).
Proof.
  intros Hsk Hcl Hst Hb. apply trim_empty_iff_blank in Hb.
  rewrite (handle_Response _ _ _ _ _ Hsk Hcl). split; intros Hstep.
  - rewrite (handleResponse_rejected uuidv4 w sid sk st (trim d) _ _ Hsk Hst
               (rej_username w st (trim d) Hstep Hb)). reflexivity.
  - rewrite (handleResponse_rejected uuidv4 w sid sk st (trim d) _ _ Hsk Hst
               (rej_host_passkey w st (trim d) Hstep Hb)). reflexivity.
Qed.

(** ** Errors and prompts are private *)

Lemma emits_ret {A} sid (a : A) : emits_only sid (ret a).
Proof. intros w. constructor. Qed.

Lemma emits_bind {A B} sid (m : M A) (f : A -> M B) :
  emits_only sid m -> (forall a, emits_only sid (f a)) -> emits_only sid (bind m f).
Proof.
  intros Hm Hf w. unfold bind. specialize (Hm w).
  destruct (m w) as [[a w1] o1]. specialize (Hf a w1).
  destruct (f a w1) as [[b w2] o2]. cbn in *. apply Forall_app. auto.
Qed.

Lemma emits_socket_emit sid ev msg : emits_only sid (socket_emit sid ev msg).
Proof. intros w. cbn. repeat constructor. Qed.

Lemma emits_io_to_emit sid r msg : emits_only sid (io_to_emit r "message" msg).
Proof. intros w. cbn. repeat constructor. Qed.

Lemma emits_get_world sid : emits_only sid get_world.
Proof. intros w. constructor. Qed.

Lemma emits_put_rooms sid rs : emits_only sid (put_rooms rs).
Proof. intros w. constructor. Qed.

Lemma emits_upd_socket sid c f : emits_only sid (upd_socket c f).
Proof. intros w. unfold upd_socket. destruct (JsMap.get c (sockets w)); constructor. Qed.

Lemma emits_next_uuid sid : emits_only sid (next_uuid uuidv4).
Proof. intros w. constructor. Qed.

Ltac emits_step :=
  first
    [ apply emits_bind; [|intros ?]
    | apply emits_ret
    | apply emits_socket_emit
    | apply emits_io_to_emit
    | apply emits_get_world
    | apply emits_put_rooms
    | apply emits_upd_socket
    | apply emits_next_uuid
    | match goal with
      | |- emits_only _ (if ?c then _ else _) => destruct c
      | |- emits_only _ (match ?x with _ => _ end) => destruct x
      end ].

Lemma emits_createRoom sid pk : emits_only sid (createRoom uuidv4 sid pk).
Proof.
  unfold createRoom, set_socket_state. repeat emits_step.
Qed.

Lemma emits_joinRoom sid r u : emits_only sid (joinRoom sid r u).
Proof.
  unfold joinRoom, set_socket_state, socket_join, rooms_get. repeat emits_step.
Qed.

Lemma emits_handleResponse sid data : emits_only sid (handleResponse uuidv4 sid data).
Proof.
  unfold handleResponse, set_socket_state, set_socket_roomId.
  apply emits_bind; [apply emits_get_world|intros w0]. cbv zeta.
  apply emits_bind; [|intros ?; apply emits_upd_socket].
  repeat first [ apply emits_createRoom | apply emits_joinRoom | emits_step ].
Qed.

Lemma emits_on_chat_message sid data : emits_only sid (on_chat_message sid data).
Proof. unfold on_chat_message. repeat emits_step. Qed.

Lemma emits_on_quit sid : emits_only sid (on_quit sid).
Proof.
  unfold on_quit, set_socket_state, socket_disconnect. repeat emits_step.
Qed.

Lemma emits_on_disconnect sid : emits_only sid (on_disconnect sid).
Proof. unfold on_disconnect. repeat emits_step. Qed.

Lemma emits_dispatch e : emits_only (event_socket e) (dispatch uuidv4 e).
Proof.
  unfold dispatch. apply emits_bind; [apply emits_get_world|intros w0].
  destruct e as [sid|sid data|sid data|sid|sid]; cbn [event_socket].
  - destruct (JsMap.has sid (sockets w0)); [apply emits_ret|].
    intros w. cbn. repeat constructor.
  - repeat first [ apply emits_handleResponse | emits_step ].
  - repeat first [ apply emits_on_chat_message | emits_step ].
  - repeat first [ apply emits_on_quit | emits_step ].
  - destruct (JsMap.has sid (sockets w0)); [|apply emits_ret].
    apply emits_bind; [intros w; constructor|intros ?]. apply emits_on_disconnect.
Qed.

(** X10.  Whatever the world and the event, what the server sends to a
    single socket goes to the socket the event arrived on, and what it
    sends to a room is a [message]: an error or a prompt never reaches
    another connection. *)
Theorem errors_and_prompts_are_private w e :
  Forall (private_or_message (event_socket e)) (snd (handle uuidv4 w e)).
Proof.
  pose proof (emits_dispatch e w) as H. unfold handle.
  destruct (dispatch uuidv4 e w) as [[u w'] out]. exact H.
Qed.

(** ** The way into a room, step by step *)

Lemma handleResponse_choice_connect w sid sk st :
  JsMap.get sid (sockets w) = Some sk -> state sk = Some st -> step st = "choice" ->
  handleResponse uuidv4 sid "2" w =
  (tt,
   mkWorld (rooms w)
     (JsMap.set sid (mkSocket (Some (set_step st "connect_room")) (sock_roomId sk)
                              (sio_rooms sk) (closing sk)) (sockets w))
     (uuid_calls w),
   [SocketEmit sid "prompt" prompt_connect_room]).
Proof.
  intros Hsk Hst Hstep. step_handler. rewrite Hsk, Hst, Hstep. norm_sock Hsk. reflexivity.
Qed.

Lemma handleResponse_room_id w sid sk st data room :
  JsMap.get sid (sockets w) = Some sk -> state sk = Some st -> step st = "connect_room" ->
  JsMap.get data (rooms w) = Some room ->
  handleResponse uuidv4 sid data w =
  (tt,
   mkWorld (rooms w)
     (JsMap.set sid
        (mkSocket (Some (mkState (if truthy (passkey room) then "connect_passkey"
                                  else "username") (Some data)))
                  (sock_roomId sk) (sio_rooms sk) (closing sk)) (sockets w))
     (uuid_calls w),
   [SocketEmit sid "prompt"
      (if truthy (passkey room) then prompt_connect_passkey else prompt_username)]).
Proof.
  intros Hsk Hst Hstep Hroom. step_handler. rewrite Hsk, Hst, Hstep. cbn. rewrite Hroom.
  destruct (truthy (passkey room)); norm_sock Hsk; reflexivity.
Qed.

Lemma handleResponse_join w sid sk st r room data :
  JsMap.get sid (sockets w) = Some sk -> state sk = Some st -> step st = "username" ->
  roomId st = Some r -> JsMap.get r (rooms w) = Some room -> data <> EmptyString ->
  handleResponse uuidv4 sid data w =
  (tt,
   mkWorld
     (JsMap.set r (mkRoom (passkey room) (JsMap.set sid data (clients room))) (rooms w))
     (JsMap.set sid
        (mkSocket (Some (chat_state r)) (sock_roomId sk)
                  (if existsb (String.eqb r) (sio_rooms sk) then sio_rooms sk
                   else sio_rooms sk ++ [r])
                  (closing sk)) (sockets w))
     (uuid_calls w),
   [RoomEmit r
      (recipients r
         (mkWorld (rooms w)
            (JsMap.set sid
               (mkSocket (Some (chat_state r)) (sock_roomId sk)
                         (if existsb (String.eqb r) (sio_rooms sk) then sio_rooms sk
                          else sio_rooms sk ++ [r])
                         (closing sk)) (sockets w))
            (uuid_calls w)))
      "message" ("*** " ++ data ++ " joined the chat ***")%string;
    SocketEmit sid "message" "Connection successful. Welcome to the chat!";
    SocketEmit sid "message" "type and hit enter to send a message"]).
Proof.
  intros Hsk Hst Hstep Hrid Hr Hd. apply truthy_str_true in Hd.
  step_handler. rewrite Hsk, Hst, Hstep. cbn. rewrite Hd. cbn. rewrite Hrid, Hr.
  norm_sock Hsk. unfold set_step, chat_state. rewrite Hrid. reflexivity.
Qed.

Lemma In_joined r l :
  In r (if existsb (String.eqb r) l then l else l ++ [r]).
Proof.
  destruct (existsb (String.eqb r) l) eqn:Hex.
  - apply existsb_exists in Hex. destruct Hex as [x [Hx Hxe]].
    apply String.eqb_eq in Hxe. now subst.
  - apply in_or_app. right. now left.
Qed.

Lemma run_app w es1 es2 :
  run uuidv4 w (es1 ++ es2) =
  (fst (run uuidv4 (fst (run uuidv4 w es1)) es2),
   snd (run uuidv4 w es1) ++ snd (run uuidv4 (fst (run uuidv4 w es1)) es2)).
Proof.
  revert w. induction es1 as [|e es1 IH]; intros w; cbn.
  - now destruct (run uuidv4 w es2).
  - destruct (handle uuidv4 w e) as [w1 o1]. rewrite IH.
    destruct (run uuidv4 w1 es1) as [w2 o2]. cbn.
    now rewrite app_assoc.
Qed.

Lemma run_one w e : run uuidv4 w [e] = (fst (handle uuidv4 w e), snd (handle uuidv4 w e)).
Proof. cbn. destruct (handle uuidv4 w e). cbn. now rewrite app_nil_r. Qed.

Lemma run_cons w e es :
  run uuidv4 w (e :: es) =
  (fst (run uuidv4 (fst (handle uuidv4 w e)) es),
   snd (handle uuidv4 w e) ++ snd (run uuidv4 (fst (handle uuidv4 w e)) es)).
Proof.
  cbn [run]. destruct (handle uuidv4 w e) as [w1 o1]. cbn [fst snd].
  now destruct (run uuidv4 w1 es).
Qed.

(** The first two answers of a session that connects: 2, then the id of
    a room of the registry. *)
Lemma run_to_room_id w sid sk st d1 d2 room :
  JsMap.get sid (sockets w) = Some sk -> closing sk = false ->
  state sk = Some st -> step st = "choice" ->
  trim d1 = "2" -> JsMap.get (trim d2) (rooms w) = Some room ->
  run uuidv4 w [Response sid d1; Response sid d2] =
  (mkWorld (rooms w)
     (JsMap.set sid
        (mkSocket (Some (mkState (if truthy (passkey room) then "connect_passkey"
                                  else "username") (Some (trim d2))))
                  (sock_roomId sk) (sio_rooms sk) false) (sockets w))
     (uuid_calls w),
   [SocketEmit sid "prompt" prompt_connect_room;
    SocketEmit sid "prompt"
      (if truthy (passkey room) then prompt_connect_passkey else prompt_username)]).
Proof.
  intros Hsk Hcl Hst Hstep Hd1 Hroom.
  rewrite run_cons, run_one.
  rewrite (handle_Response _ _ _ _ _ Hsk Hcl), Hd1.
  rewrite (handleResponse_choice_connect w sid sk st Hsk Hst Hstep).
  unfold out_of; cbn [fst snd].
  erewrite handle_Response; [|cbn; apply get_set_same|cbn; exact Hcl].
  erewrite handleResponse_room_id;
    [|cbn; apply get_set_same|reflexivity|reflexivity|exact Hroom].
  unfold out_of; cbn [fst snd rooms sockets uuid_calls sock_roomId sio_rooms closing].
  rewrite set_set, Hcl. reflexivity.
Qed.

(** X11.  The way into an open room.  A live session at [choice] that
    answers 2, then the id of a room without passkey, then a non-empty
    name (each as it is after trimming) is a member of that room under
    that name, at step [chat], and the notice that it joined is
    delivered to it. *)
Theorem connecting_to_an_open_room w sid sk st d1 d2 d3 room :
  JsMap.get sid (sockets w) = Some sk -> closing sk = false ->
  state sk = Some st -> step st = "choice" ->
  trim d1 = "2" ->
  JsMap.get (trim d2) (rooms w) = Some room -> passkey room = None ->
  trim d3 <> EmptyString ->
  member_of (fst (run uuidv4 w [Response sid d1; Response sid d2; Response sid d3]))
            (trim d2) sid (trim d3) /\
  socket_step (fst (run uuidv4 w [Response sid d1; Response sid d2; Response sid d3])) sid
    = Some "chat" /\
  In (sid, "message", ("*** " ++ trim d3 ++ " joined the chat ***")%string)
     (all_deliveries (snd (run uuidv4 w [Response sid d1; Response sid d2; Response sid d3]))).
Proof.
  intros Hsk Hcl Hst Hstep Hd1 Hroom Hpk Hd3.
  change [Response sid d1; Response sid d2; Response sid d3]
    with ([Response sid d1; Response sid d2] ++ [Response sid d3]).
  rewrite run_app, (run_to_room_id w sid sk st d1 d2 room Hsk Hcl Hst Hstep Hd1 Hroom).
  rewrite Hpk. cbn [truthy fst snd]. rewrite run_one.
  erewrite handle_Response; [|cbn; apply get_set_same|reflexivity].
  erewrite handleResponse_join;
    [|cbn; apply get_set_same|reflexivity|reflexivity|reflexivity|exact Hroom|exact Hd3].
  unfold out_of; cbn [fst snd rooms sockets uuid_calls sock_roomId sio_rooms closing].
  rewrite !set_set. split; [|split].
  - eexists. cbn [rooms]. split; [apply get_set_same|]. cbn [clients]. apply get_set_same.
  - now rewrite (socket_step_set _ _ _ (chat_state (trim d2))).
  - unfold all_deliveries. rewrite flat_map_app. apply in_or_app. right.
    cbn [flat_map deliveries]. apply in_or_app. left.
    apply (in_map (fun s => (s, "message", ("*** " ++ trim d3 ++ " joined the chat ***")%string))).
    eapply In_recipients; [cbn; apply get_set_same|]. cbn [sio_rooms]. apply In_joined.
Qed.

(** X12.  The way into a private room.  A live session at [choice] that
    answers 2, then the id of a room with passkey [pk], then any number of
    texts other than [pk], then [pk], then a non-empty name, is a member
    of that room under that name, at step [chat]: wrong attempts cost
    nothing. *)
Theorem connecting_to_a_private_room w sid sk st d1 d2 wrong dpk d3 room pk :
  JsMap.get sid (sockets w) = Some sk -> closing sk = false ->
  state sk = Some st -> step st = "choice" ->
  trim d1 = "2" ->
  JsMap.get (trim d2) (rooms w) = Some room -> passkey room = Some pk -> pk <> EmptyString ->
  Forall (fun d => trim d <> pk) wrong ->
  trim dpk = pk ->
  trim d3 <> EmptyString ->
  member_of
    (fst (run uuidv4 w ([Response sid d1; Response sid d2] ++ map (Response sid) wrong
                        ++ [Response sid dpk; Response sid d3])))
    (trim d2) sid (trim d3) /\
  socket_step
    (fst (run uuidv4 w ([Response sid d1; Response sid d2] ++ map (Response sid) wrong
                        ++ [Response sid dpk; Response sid d3])))
    sid = Some "chat".
Proof.
  intros Hsk Hcl Hst Hstep Hd1 Hroom Hpk Hne Hwrong Hdpk Hd3.
  rewrite run_app, (run_to_room_id w sid sk st d1 d2 room Hsk Hcl Hst Hstep Hd1 Hroom).
  assert (Ht : truthy (passkey room) = true).
  { rewrite Hpk. cbn. now apply truthy_str_true. }
  rewrite Ht. cbn [fst snd].
  set (sk1 := mkSocket (Some (mkState "connect_passkey" (Some (trim d2))))
                       (sock_roomId sk) (sio_rooms sk) false).
  set (w1 := mkWorld (rooms w) (JsMap.set sid sk1 (sockets w)) (uuid_calls w)).
  assert (Hsk1 : JsMap.get sid (sockets w1) = Some sk1) by apply get_set_same.
  rewrite run_app.
  destruct (run_rejected_inputs w1 sid sk1
              (mkState "connect_passkey" (Some (trim d2))) wrong Hsk1 eq_refl eq_refl)
    as [-> _].
  { eapply Forall_impl; [|exact Hwrong]. intros d Hd. cbn beta in Hd.
    exists "Invalid passkey.", prompt_connect_passkey.
    apply rej_connect_passkey; [reflexivity|].
    intros [room' [Hr' Hp']]. cbn in Hr'. rewrite Hroom in Hr'. injection Hr' as <-.
    congruence. }
  cbn [fst]. rewrite run_cons, run_one.
  rewrite (handle_Response _ _ _ _ _ Hsk1 eq_refl).
  rewrite (handleResponse_connect_passkey uuidv4 w1 sid sk1
             (mkState "connect_passkey" (Some (trim d2))) (trim dpk) Hsk1 eq_refl eq_refl).
  assert (Hm : passkey_mismatch
                 (rooms_get (roomId (mkState "connect_passkey" (Some (trim d2)))) w1)
                 (trim dpk) = false).
  { apply passkey_mismatch_false. exists room. cbn. split; [exact Hroom|congruence]. }
  rewrite Hm. unfold out_of; cbn [fst snd].
  erewrite handle_Response; [|cbn; apply get_set_same|reflexivity].
  erewrite handleResponse_join;
    [|cbn; apply get_set_same|reflexivity|reflexivity|reflexivity|exact Hroom|exact Hd3].
  unfold out_of; cbn [fst snd rooms sockets uuid_calls sock_roomId sio_rooms closing].
  split.
  - eexists. cbn [rooms]. split; [apply get_set_same|]. cbn [clients]. apply get_set_same.
  - now rewrite (socket_step_set _ _ _ (chat_state (trim d2))).
Qed.

(** From here on: [uuidv4()] never returns the empty string. *)
Hypothesis uuidv4_truthy : forall n, uuidv4 n <> EmptyString.

(** ** Members *)

(** X13.  In every reachable world a member of a room has a non-empty
    name there, the room id is not empty, its session is live, at step
    [chat] with that room as [roomId], and has joined the Socket.IO room
    of that id; and it is a member of no other room, nor of this one
    under another name. *)
Theorem member_is_in_chat_in_one_room w r sid u :
  reachable uuidv4 w -> member_of w r sid u ->
  u <> EmptyString /\ r <> EmptyString /\
  (exists sk, JsMap.get sid (sockets w) = Some sk /\ closing sk = false /\
              state sk = Some (mkState "chat" (Some r)) /\ In r (sio_rooms sk)) /\
  (forall r' u', member_of w r' sid u' -> r' = r /\ u' = u).
Proof.
  intros Hw [room [Hr Hu]].
  pose proof (reachable_Inv uuidv4 uuidv4_truthy w Hw) as HI.
  destruct (inv_members _ HI _ _ _ _ Hr Hu) as [Htu [sk [Hsk [Hcl [Hst Hin]]]]].
  split; [now apply truthy_str_true|].
  split; [apply truthy_str_true; eapply inv_room_ids; eauto|].
  split; [exists sk; auto|].
  intros r' u' [room' [Hr' Hu']].
  assert (r' = r) as -> by (eapply Inv_member_unique; eauto).
  split; [reflexivity|congruence].
Qed.

(** X14.  In every reachable world [findRoomForSocket] returns the id of
    the room the socket is a member of, and [null] exactly when it is a
    member of none. *)
Theorem findRoomForSocket_finds_the_room w sid :
  reachable uuidv4 w ->
  (forall r, findRoomForSocket (rooms w) sid = Some r <-> exists u, member_of w r sid u) /\
  (findRoomForSocket (rooms w) sid = None <-> not_member (rooms w) sid).
Proof.
  intros Hw. pose proof (reachable_Inv uuidv4 uuidv4_truthy w Hw) as HI. split.
  - intros r. split.
    + intros Hf. destruct (findRoom_get _ _ _ (inv_nodup _ HI) Hf) as [room [u [Hr Hu]]].
      exists u, room. auto.
    + intros [u [room [Hr Hu]]]. eapply Inv_findRoom_member; eauto.
  - split; [apply findRoom_not_member|].
    intros Hn. apply not_member_findRoom; [exact Hn|apply (inv_nodup _ HI)].
Qed.


Lemma recipients_connected r w c :
  In c (recipients r w) -> JsMap.get c (sockets w) <> None.
Proof.
  unfold recipients. intros Hin. apply in_map_iff in Hin.
  destruct Hin as [[c' sk] [Heq Hin]]. cbn in Heq. subst c'.
  apply filter_In in Hin. destruct Hin as [Hin _].
  intros Hn. apply get_None_keys in Hn. apply Hn. eapply In_keys; eauto.
Qed.

(** X16.  When a member of a room disconnects without quitting, the
    notice that it left is the one event sent; it is delivered to every
    other member and not to the connection that is gone; the socket is
    dropped and is a member of no room; and while another member remains
    the room stays in the registry, with the others as they were. *)
Theorem disconnect_of_a_member_tells_the_others w r room sid u :
  reachable uuidv4 w ->
  JsMap.get r (rooms w) = Some room -> JsMap.get sid (clients room) = Some u ->
  (exists to, snd (handle uuidv4 w (Disconnect sid)) =
              [RoomEmit r to "message" ("*** " ++ u ++ " left the chat ***")%string]) /\
  (forall ev msg, ~ In (sid, ev, msg) (all_deliveries (snd (handle uuidv4 w (Disconnect sid))))) /\
  JsMap.get sid (sockets (fst (handle uuidv4 w (Disconnect sid)))) = None /\
  not_member (rooms (fst (handle uuidv4 w (Disconnect sid)))) sid /\
  (forall c uc,
     c <> sid -> JsMap.get c (clients room) = Some uc ->
     In (c, "message", ("*** " ++ u ++ " left the chat ***")%string)
        (all_deliveries (snd (handle uuidv4 w (Disconnect sid)))) /\
     JsMap.get r (rooms (fst (handle uuidv4 w (Disconnect sid)))) = Some (without sid room) /\
     JsMap.get c (clients (without sid room)) = Some uc).
Proof.
  intros Hw Hr Hu.
  pose proof (reachable_Inv uuidv4 uuidv4_truthy w Hw) as HI.
  destruct (inv_members _ HI _ _ _ _ Hr Hu) as [Htu [sk [Hsk _]]].
  rewrite (handle_Disconnect _ _ _ _ Hsk). unfold out_of.
  rewrite (on_disconnect_member _ sid r room u); cbn [rooms sockets uuid_calls]; auto;
    [|eapply Inv_findRoom_member; eauto|eapply inv_room_ids; eauto].
  cbn [fst snd sockets rooms].
  set (w1 := mkWorld (rooms w) (JsMap.delete sid (sockets w)) (uuid_calls w)).
  split; [eexists; reflexivity|].
  split.
  { intros ev msg Hin. unfold all_deliveries in Hin.
    cbn [flat_map deliveries] in Hin. rewrite app_nil_r in Hin.
    apply in_map_iff in Hin. destruct Hin as [c [Heq Hin]]. injection Heq as -> _ _.
    apply recipients_connected in Hin. apply Hin. cbn. apply get_delete_same. }
  split; [apply get_delete_same|].
  split.
  { destruct (JsMap.size (clients (without sid room)) =? 0)%nat.
    - apply not_member_delete_room. eapply not_member_without; eauto.
    - eapply not_member_without; eauto. }
  intros c uc Hc Huc.
  assert (Hkeep : JsMap.get c (clients (without sid room)) = Some uc).
  { cbn. now rewrite get_delete_other by congruence. }
  split; [|split; [|exact Hkeep]].
  - unfold all_deliveries. cbn [flat_map deliveries]. rewrite app_nil_r.
    apply (in_map (fun s => (s, "message", left_notice u))).
    destruct (inv_members _ HI _ _ _ _ Hr Huc) as [_ [skc [Hskc [_ [_ Hinc]]]]].
    eapply In_recipients; [|exact Hinc]. cbn. now rewrite get_delete_other by congruence.
  - assert (Hsize : (JsMap.size (clients (without sid room)) =? 0)%nat = false).
    { unfold JsMap.size. destruct (clients (without sid room)); [discriminate Hkeep|reflexivity]. }
    rewrite Hsize. apply get_set_same.
Qed.

(** X17.  When a session at [username] gives a non-empty name for a room
    that exists, in a reachable world: it becomes a member under that
    name (as trimmed); those who were members stay members under their
    names; the notice that it joined is delivered to each of them and to
    the newcomer; and the newcomer alone gets the welcome and the hint. *)
Theorem joining_tells_the_room w sid sk st r room d :
  reachable uuidv4 w ->
  JsMap.get sid (sockets w) = Some sk -> closing sk = false ->
  state sk = Some st -> step st = "username" -> roomId st = Some r ->
  JsMap.get r (rooms w) = Some room ->
  trim d <> EmptyString ->
  (exists to,
     snd (handle uuidv4 w (Response sid d)) =
     [RoomEmit r to "message" ("*** " ++ trim d ++ " joined the chat ***")%string;
      SocketEmit sid "message" "Connection successful. Welcome to the chat!";
      SocketEmit sid "message" "type and hit enter to send a message"] /\
     In sid to /\
     (forall c, JsMap.has c (clients room) = true -> In c to)) /\
  member_of (fst (handle uuidv4 w (Response sid d))) r sid (trim d) /\
  (forall c uc, member_of w r c uc -> member_of (fst (handle uuidv4 w (Response sid d))) r c uc).
Proof.
  intros Hw Hsk Hcl Hst Hstep Hrid Hr Hd.
  pose proof (reachable_Inv uuidv4 uuidv4_truthy w Hw) as HI.
  rewrite (handle_Response _ _ _ _ _ Hsk Hcl).
  rewrite (handleResponse_join w sid sk st r room (trim d) Hsk Hst Hstep Hrid Hr Hd).
  unfold out_of; cbn [fst snd].
  assert (Hnm : not_member (rooms w) sid).
  { eapply not_member_step; eauto. unfold cur_state. rewrite Hst, Hstep. discriminate. }
  split; [|split].
  - eexists. split; [reflexivity|]. split.
    + eapply In_recipients; [cbn; apply get_set_same|]. cbn. apply In_joined.
    + intros c Hc. apply has_true in Hc. destruct Hc as [uc Huc].
      destruct (inv_members _ HI _ _ _ _ Hr Huc) as [_ [skc [Hskc [_ [_ Hinc]]]]].
      eapply In_recipients; [|exact Hinc]. cbn.
      rewrite get_set_other; [exact Hskc|].
      intros <-. rewrite (Hnm _ _ Hr) in Huc. discriminate.
  - eexists. cbn. split; [apply get_set_same|]. cbn. apply get_set_same.
  - intros c uc [room' [Hr' Huc]]. assert (room' = room) as -> by congruence.
    eexists. cbn. split; [apply get_set_same|]. cbn.
    rewrite get_set_other; [exact Huc|].
    intros <-. rewrite (Hnm _ _ Hr) in Huc. discriminate.
Qed.

(** ** Shutdown *)

Lemma announce_shutdown_out ids w :
  announce_shutdown ids w =
  (tt, w, map (fun r => RoomEmit r (recipients r w) "message" shutdown_notice) ids).
Proof.
  induction ids as [|r ids IH]; cbn; [reflexivity|].
  unfold bind, io_to_emit. now rewrite IH.
Qed.

(** X18.  The loop of the [SIGINT] listener, which runs before
    [io.close], changes nothing in the world and makes one broadcast of
    the shutdown notice per room of the registry, in the order of the
    registry; in a reachable world the notice is delivered to every
    member of every room. *)
Theorem shutdown_notice_reaches_every_member w :
  reachable uuidv4 w ->
  on_sigint w =
    (tt, w, map (fun r => RoomEmit r (recipients r w) "message" shutdown_notice)
                (JsMap.keys (rooms w))) /\
  (forall r sid u,
      member_of w r sid u ->
      In (sid, "message", shutdown_notice) (all_deliveries (snd (on_sigint w)))).
Proof.
  intros Hw. pose proof (reachable_Inv uuidv4 uuidv4_truthy w Hw) as HI.
  assert (Heq : on_sigint w =
    (tt, w, map (fun r => RoomEmit r (recipients r w) "message" shutdown_notice)
                (JsMap.keys (rooms w)))).
  { unfold on_sigint, bind, get_world. now rewrite announce_shutdown_out. }
  split; [exact Heq|].
  intros r sid u [room [Hr Hu]]. rewrite Heq. cbn [snd].
  destruct (inv_members _ HI _ _ _ _ Hr Hu) as [_ [sk [Hsk [_ [_ Hin]]]]].
  unfold all_deliveries. apply in_flat_map.
  exists (RoomEmit r (recipients r w) "message" shutdown_notice). split.
  - apply (in_map (fun r => RoomEmit r (recipients r w) "message" shutdown_notice)).
    eapply In_keys. apply get_In. exact Hr.
  - cbn. apply (in_map (fun s => (s, "message", shutdown_notice))).
    eapply In_recipients; eauto.
Qed.

(** ** A member stays until it leaves *)

(** From here on: [uuidv4()] never returns the same value twice. *)
Hypothesis uuidv4_injective : forall m n, uuidv4 m = uuidv4 n -> m = n.

Lemma member_stays w e r room sid u :
  reachable uuidv4 w ->
  JsMap.get r (rooms w) = Some room -> JsMap.get sid (clients room) = Some u ->
  stays_open sid e ->
  exists room',
    JsMap.get r (rooms (fst (handle uuidv4 w e))) = Some room' /\
    passkey room' = passkey room /\
    JsMap.get sid (clients room') = Some u.
Proof.
  intros Hw Hr Hu [Hq Hd].
  pose proof (reachable_Inv uuidv4 uuidv4_truthy w Hw) as HI.
  pose proof (reachable_ids_issued w Hw) as Hiss.
  destruct (handle_registry_change w e)
    as [e|c data pk Hpk|c data r0 room0 Hstep0 Hr0 _|e c r0 room0 He Hr0|c r0 room0 Hr0 Hdel].
  - exists room. auto.
  - exists room. split; [|auto].
    rewrite get_set_other; [exact Hr|].
    intros Heq. destruct (Hiss r) as [k [Hk Hrk]].
    { eapply In_keys. apply get_In. exact Hr. }
    rewrite Hrk in Heq. apply uuidv4_injective in Heq. subst k.
    exact (Nat.lt_irrefl _ Hk).
  - destruct (String.eqb_spec r0 r) as [->|Hne].
    + assert (room0 = room) as -> by congruence.
      eexists. split; [apply get_set_same|]. split; [reflexivity|]. cbn.
      rewrite get_set_other; [exact Hu|].
      intros ->. destruct (inv_members _ HI _ _ _ _ Hr Hu) as [_ [sk [Hsk [_ [Hst _]]]]].
      unfold socket_step in Hstep0. rewrite Hsk, Hst in Hstep0. discriminate Hstep0.
    + exists room. rewrite get_set_other by exact Hne. auto.
  - assert (Hc : c <> sid) by (intros ->; destruct He; congruence).
    destruct (String.eqb_spec r0 r) as [->|Hne].
    + assert (room0 = room) as -> by congruence.
      eexists. split; [apply get_set_same|]. split; [reflexivity|]. cbn.
      now rewrite get_delete_other.
    + exists room. rewrite get_set_other by exact Hne. auto.
  - assert (Hc : c <> sid) by (intros ->; congruence).
    destruct (String.eqb_spec r0 r) as [->|Hne].
    + assert (room0 = room) as -> by congruence. exfalso.
      assert (H : JsMap.get sid (JsMap.delete c (clients room)) = Some u)
        by now rewrite get_delete_other.
      rewrite Hdel in H. discriminate H.
    + exists room. rewrite get_delete_other, get_set_other by exact Hne. auto.
Qed.

(** X19.  With [uuidv4()] never repeating a value: a member of a room is
    still a member of it, under the same name and with the room's passkey
    unchanged, after any events that do not end its own connection.  A
    name is set once, and neither other people's joining and leaving nor
    the creation of rooms touches it. *)
Theorem member_stays_until_it_leaves w es r room sid u :
  reachable uuidv4 w ->
  JsMap.get r (rooms w) = Some room -> JsMap.get sid (clients room) = Some u ->
  Forall (stays_open sid) es ->
  exists room',
    JsMap.get r (rooms (fst (run uuidv4 w es))) = Some room' /\
    passkey room' = passkey room /\
    JsMap.get sid (clients room') = Some u.
Proof.
  intros Hw Hr Hu Hes. revert w room Hw Hr Hu.
  induction Hes as [|e es He _ IH]; intros w room Hw Hr Hu; cbn [run].
  - exists room. auto.
  - destruct (member_stays w e r room sid u Hw Hr Hu He) as [room1 [Hr1 [Hp1 Hu1]]].
    assert (Hw1 : reachable uuidv4 (fst (handle uuidv4 w e))) by now constructor.
    destruct (handle uuidv4 w e) as [w1 o1]. cbn [fst] in *.
    destruct (IH w1 room1 Hw1 Hr1 Hu1) as [room' [Hr' [Hp' Hu']]].
    destruct (run uuidv4 w1 es) as [w2 o2]. cbn [fst] in *.
    exists room'. split; [exact Hr'|]. split; [congruence|exact Hu'].
Qed.
End ServerMore.

(** ** [getServerIp] *)

Lemma external_ipv4_test iface :
  (family iface =? "IPv4")%string && negb (internal iface) = true <-> external_ipv4 iface.
Proof.
  unfold external_ipv4. rewrite andb_true_iff, negb_true_iff, String.eqb_eq. tauto.
Qed.

Lemma first_external_spec l :
  (exists before iface after,
      l = before ++ iface :: after /\
      Forall (fun i => ~ external_ipv4 i) before /\
      external_ipv4 iface /\
      first_external l = Some (address iface)) \/
  (Forall (fun i => ~ external_ipv4 i) l /\ first_external l = None).
Proof.
  induction l as [|i l IH]; cbn.
  - right. split; [constructor|reflexivity].
  - destruct ((family i =? "IPv4")%string && negb (internal i)) eqn:Ht.
    + left. exists [], i, l. apply external_ipv4_test in Ht.
      split; [reflexivity|]. split; [constructor|]. split; [exact Ht|reflexivity].
    + assert (Hi : ~ external_ipv4 i).
      { intros H. apply external_ipv4_test in H. congruence. }
      destruct IH as [[before [iface [after [-> [Hb [He Hf]]]]]]|[Hall Hf]].
      * left. exists (i :: before), iface, after.
        split; [reflexivity|]. split; [constructor; auto|]. split; [exact He|exact Hf].
      * right. split; [constructor; auto|exact Hf].
Qed.

Lemma first_external_app l1 l2 :
  first_external (l1 ++ l2) =
  match first_external l1 with
  | Some a => Some a
  | None => first_external l2
  end.
Proof.
  induction l1 as [|i l1 IH]; cbn; [reflexivity|].
  destruct ((family i =? "IPv4")%string && negb (internal i)); [reflexivity|exact IH].
Qed.

Lemma scan_interfaces_flat interfaces names :
  scan_interfaces interfaces names =
  first_external (flat_map (ifaces_of interfaces) names).
Proof.
  induction names as [|name names IH]; cbn; [reflexivity|].
  rewrite first_external_app, IH. reflexivity.
Qed.

(** X20.  [getServerIp] returns the address of the first interface, in
    the order of the names and then of each name's array, that is IPv4
    and not internal; and it returns "localhost" when there is none. *)
Theorem getServerIp_is_first_external_address interfaces :
  (exists before iface after,
      all_ifaces interfaces = before ++ iface :: after /\
      Forall (fun i => ~ external_ipv4 i) before /\
      external_ipv4 iface /\
      getServerIp interfaces = address iface) \/
  (Forall (fun i => ~ external_ipv4 i) (all_ifaces interfaces) /\
   getServerIp interfaces = "localhost").
Proof.
  unfold getServerIp, all_ifaces. rewrite scan_interfaces_flat.
  destruct (first_external_spec (flat_map (ifaces_of interfaces) (JsMap.keys interfaces)))
    as [[before [iface [after [Heq [Hb [He Hf]]]]]]|[Hall Hf]]; rewrite Hf.
  - left. exists before, iface, after. auto.
  - right. auto.
Qed.

(** ** The sample generator never repeats a value *)

Lemma uint_of_zeros k s :
  NilEmpty.uint_of_string (zeros k ++ s) =
  option_map (Nat.iter k Decimal.D0) (NilEmpty.uint_of_string s).
Proof.
  induction k as [|k IH]; cbn [zeros append Nat.iter].
  - now destruct (NilEmpty.uint_of_string s).
  - cbn. rewrite IH. now destruct (NilEmpty.uint_of_string s).
Qed.

Lemma of_uint_zeros k d : Nat.of_uint (Nat.iter k Decimal.D0 d) = Nat.of_uint d.
Proof. induction k as [|k IH]; cbn; [reflexivity|exact IH]. Qed.

Lemma decimal_value_padded k n :
  decimal_value (zeros k ++ NilEmpty.string_of_uint (Nat.to_uint n)) = Some n.
Proof.
  unfold decimal_value. rewrite uint_of_zeros, NilEmpty.usu. cbn.
  now rewrite of_uint_zeros, DecimalNat.Unsigned.of_to.
Qed.

Lemma sample_uuid_injective : forall m n, sample_uuid m = sample_uuid n -> m = n.
Proof.
  intros m n H. unfold sample_uuid in H. cbn in H.
  repeat match type of H with String _ _ = String _ _ => injection H as H end.
  apply (f_equal decimal_value) in H. rewrite !decimal_value_padded in H.
  now injection H.
Qed.

(** ** The further theorems at work *)

Lemma room_ids_come_from_hosting_witness :
  sample_uuid 0 = sample_uuid (uuid_calls (world_after [Connection "s1"; Response "s1" "1"])) /\
  exists sid data,
    Response "s1" "1" = Response sid data /\
    (socket_step (world_after [Connection "s1"; Response "s1" "1"]) sid = Some "host_type" \/
     socket_step (world_after [Connection "s1"; Response "s1" "1"]) sid = Some "host_passkey").
Proof.
  apply (room_ids_come_from_hosting sample_uuid
           (world_after [Connection "s1"; Response "s1" "1"]) (Response "s1" "1") (sample_uuid 0)).
  - vm_compute. left. reflexivity.
  - vm_compute. intros [].
Defined.

Lemma passkey_is_null_or_not_empty_witness :
  (forall pk, passkey (mkRoom (Some "secret") []) = Some pk -> pk <> EmptyString) /\
  (truthy (passkey (mkRoom (Some "secret") [])) = false <->
   passkey (mkRoom (Some "secret") []) = None).
Proof.
  apply (passkey_is_null_or_not_empty sample_uuid passkey_world (sample_uuid 0)).
  - apply world_after_reachable.
  - vm_compute. reflexivity.
Defined.

Lemma events_of_others_leave_session_alone_witness :
  JsMap.get "s2" (sockets (fst (handle sample_uuid bob_world (Response "s1" "2")))) =
    JsMap.get "s2" (sockets bob_world) /\
  (not_member (rooms bob_world) "s2" ->
   not_member (rooms (fst (handle sample_uuid bob_world (Response "s1" "2")))) "s2").
Proof.
  apply events_of_others_leave_session_alone. discriminate.
Defined.

Lemma hosting_session_never_gets_further_witness :
  is_hosting
    (fst (run sample_uuid hosted_world
              [Response "s1" "alice"; Response "s1" "2"; Response "s1" "pw";
               ChatMessage "s1" "hello"; Response "s1" "alice"]))
    "s1".
Proof.
  apply hosting_session_never_gets_further.
  - exists "host_type". split; [vm_compute; reflexivity|left; reflexivity].
  - repeat constructor; discriminate.
Defined.

Lemma chat_session_is_never_changed_witness :
  JsMap.get "s2"
    (sockets (fst (run sample_uuid bob_world
                       [Response "s2" "1"; ChatMessage "s2" "hi"; Quit "s1"; Response "s2" "2"]))) =
  Some (mkSocket (Some (mkState "chat" (Some (sample_uuid 0)))) None ["s2"; sample_uuid 0] false).
Proof.
  apply (chat_session_is_never_changed sample_uuid bob_world "s2" _
           (mkState "chat" (Some (sample_uuid 0)))).
  - vm_compute. reflexivity.
  - reflexivity.
  - reflexivity.
  - reflexivity.
  - repeat constructor; discriminate.
Defined.


Lemma blank_input_is_rejected_as_empty_witness :
  (step (mkState "username" (Some (sample_uuid 0))) = "username" ->
   handle sample_uuid username_world (Response "s2" "   ") =
   (username_world,
    [SocketEmit "s2" "error" "Username cannot be empty.";
     SocketEmit "s2" "prompt" prompt_username])) /\
  (step (mkState "username" (Some (sample_uuid 0))) = "host_passkey" ->
   handle sample_uuid username_world (Response "s2" "   ") =
   (username_world,
    [SocketEmit "s2" "error" "Passkey cannot be empty.";
     SocketEmit "s2" "prompt" prompt_host_passkey])).
Proof.
  apply (blank_input_is_rejected_as_empty sample_uuid username_world "s2"
           (mkSocket (Some (mkState "username" (Some (sample_uuid 0)))) None ["s2"] false)).
  - vm_compute. reflexivity.
  - reflexivity.
  - reflexivity.
  - reflexivity.
Defined.

Lemma connecting_to_an_open_room_witness :
  member_of
    (fst (run sample_uuid open_room_world
              [Response "s2" " 2"; Response "s2" (sample_uuid 0); Response "s2" "bob "]))
    (trim (sample_uuid 0)) "s2" (trim "bob ") /\
  socket_step
    (fst (run sample_uuid open_room_world
              [Response "s2" " 2"; Response "s2" (sample_uuid 0); Response "s2" "bob "]))
    "s2" = Some "chat" /\
  In ("s2", "message", ("*** " ++ trim "bob " ++ " joined the chat ***")%string)
     (all_deliveries
        (snd (run sample_uuid open_room_world
                  [Response "s2" " 2"; Response "s2" (sample_uuid 0); Response "s2" "bob "]))).
Proof.
  apply (connecting_to_an_open_room sample_uuid open_room_world "s2"
           (mkSocket (Some (mkState "choice" None)) None ["s2"] false)
           (mkState "choice" None) " 2" (sample_uuid 0) "bob " (mkRoom None [])).
  - vm_compute. reflexivity.
  - reflexivity.
  - reflexivity.
  - reflexivity.
  - vm_compute. reflexivity.
  - vm_compute. reflexivity.
  - reflexivity.
  - vm_compute. discriminate.
Defined.

Lemma connecting_to_a_private_room_witness :
  member_of
    (fst (run sample_uuid private_room_world
              ([Response "s2" "2"; Response "s2" (sample_uuid 0)]
               ++ map (Response "s2") ["guess"; "secre"]
               ++ [Response "s2" "secret"; Response "s2" "bob"])))
    (trim (sample_uuid 0)) "s2" (trim "bob") /\
  socket_step
    (fst (run sample_uuid private_room_world
              ([Response "s2" "2"; Response "s2" (sample_uuid 0)]
               ++ map (Response "s2") ["guess"; "secre"]
               ++ [Response "s2" "secret"; Response "s2" "bob"])))
    "s2" = Some "chat".
Proof.
  apply (connecting_to_a_private_room sample_uuid private_room_world "s2"
           (mkSocket (Some (mkState "choice" None)) None ["s2"] false)
           (mkState "choice" None) "2" (sample_uuid 0) ["guess"; "secre"] "secret" "bob"
           (mkRoom (Some "secret") []) "secret").
  - vm_compute. reflexivity.
  - reflexivity.
  - reflexivity.
  - reflexivity.
  - vm_compute. reflexivity.
  - vm_compute. reflexivity.
  - reflexivity.
  - discriminate.
  - repeat constructor; vm_compute; discriminate.
  - vm_compute. reflexivity.
  - vm_compute. discriminate.
Defined.

Lemma member_is_in_chat_in_one_room_witness :
  "bob" <> EmptyString /\ sample_uuid 0 <> EmptyString /\
  (exists sk, JsMap.get "s2" (sockets bob_carol_world) = Some sk /\ closing sk = false /\
              state sk = Some (mkState "chat" (Some (sample_uuid 0))) /\
              In (sample_uuid 0) (sio_rooms sk)) /\
  (forall r' u', member_of bob_carol_world r' "s2" u' -> r' = sample_uuid 0 /\ u' = "bob").
Proof.
  apply (member_is_in_chat_in_one_room sample_uuid sample_uuid_truthy bob_carol_world).
  - apply world_after_reachable.
  - exists (mkRoom None [("s2", "bob"); ("s3", "carol")]). split; vm_compute; reflexivity.
Defined.

Lemma findRoomForSocket_finds_the_room_witness :
  (forall r, findRoomForSocket (rooms bob_world) "s2" = Some r <->
             exists u, member_of bob_world r "s2" u) /\
  (findRoomForSocket (rooms bob_world) "s2" = None <-> not_member (rooms bob_world) "s2").
Proof.
  apply (findRoomForSocket_finds_the_room sample_uuid sample_uuid_truthy bob_world "s2").
  apply world_after_reachable.
Defined.


Lemma disconnect_of_a_member_tells_the_others_witness :
  (exists to, snd (handle sample_uuid bob_carol_world (Disconnect "s2")) =
              [RoomEmit (sample_uuid 0) to "message"
                 ("*** " ++ "bob" ++ " left the chat ***")%string]) /\
  (forall ev msg,
      ~ In ("s2", ev, msg)
           (all_deliveries (snd (handle sample_uuid bob_carol_world (Disconnect "s2"))))) /\
  JsMap.get "s2" (sockets (fst (handle sample_uuid bob_carol_world (Disconnect "s2")))) = None /\
  not_member (rooms (fst (handle sample_uuid bob_carol_world (Disconnect "s2")))) "s2" /\
  (forall c uc,
     c <> "s2" ->
     JsMap.get c (clients (mkRoom None [("s2", "bob"); ("s3", "carol")])) = Some uc ->
     In (c, "message", ("*** " ++ "bob" ++ " left the chat ***")%string)
        (all_deliveries (snd (handle sample_uuid bob_carol_world (Disconnect "s2")))) /\
     JsMap.get (sample_uuid 0)
               (rooms (fst (handle sample_uuid bob_carol_world (Disconnect "s2")))) =
       Some (without "s2" (mkRoom None [("s2", "bob"); ("s3", "carol")])) /\
     JsMap.get c (clients (without "s2" (mkRoom None [("s2", "bob"); ("s3", "carol")])))
       = Some uc).
Proof.
  apply (disconnect_of_a_member_tells_the_others sample_uuid sample_uuid_truthy
           bob_carol_world (sample_uuid 0) (mkRoom None [("s2", "bob"); ("s3", "carol")])
           "s2" "bob").
  - apply world_after_reachable.
  - vm_compute. reflexivity.
  - vm_compute. reflexivity.
Defined.

Lemma joining_tells_the_room_witness :
  (exists to,
     snd (handle sample_uuid newcomer_world (Response "s3" " carol")) =
     [RoomEmit (sample_uuid 0) to "message"
        ("*** " ++ trim " carol" ++ " joined the chat ***")%string;
      SocketEmit "s3" "message" "Connection successful. Welcome to the chat!";
      SocketEmit "s3" "message" "type and hit enter to send a message"] /\
     In "s3" to /\
     (forall c, JsMap.has c (clients (mkRoom None [("s2", "bob")])) = true -> In c to)) /\
  member_of (fst (handle sample_uuid newcomer_world (Response "s3" " carol")))
            (sample_uuid 0) "s3" (trim " carol") /\
  (forall c uc,
      member_of newcomer_world (sample_uuid 0) c uc ->
      member_of (fst (handle sample_uuid newcomer_world (Response "s3" " carol")))
                (sample_uuid 0) c uc).
Proof.
  apply (joining_tells_the_room sample_uuid sample_uuid_truthy newcomer_world "s3"
           (mkSocket (Some (mkState "username" (Some (sample_uuid 0)))) None ["s3"] false)
           (mkState "username" (Some (sample_uuid 0)))).
  - apply world_after_reachable.
  - vm_compute. reflexivity.
  - reflexivity.
  - reflexivity.
  - reflexivity.
  - reflexivity.
  - vm_compute. reflexivity.
  - vm_compute. discriminate.
Defined.

Lemma shutdown_notice_reaches_every_member_witness :
  on_sigint bob_carol_world =
    (tt, bob_carol_world,
     map (fun r => RoomEmit r (recipients r bob_carol_world) "message" shutdown_notice)
         (JsMap.keys (rooms bob_carol_world))) /\
  (forall r sid u,
      member_of bob_carol_world r sid u ->
      In (sid, "message", shutdown_notice) (all_deliveries (snd (on_sigint bob_carol_world)))).
Proof.
  apply (shutdown_notice_reaches_every_member sample_uuid sample_uuid_truthy bob_carol_world).
  apply world_after_reachable.
Defined.

Lemma member_stays_until_it_leaves_witness :
  exists room',
    JsMap.get (sample_uuid 0)
      (rooms (fst (run sample_uuid bob_carol_world
                       [Response "s1" "1"; Disconnect "s3"; Response "s2" "carol";
                        Connection "s4"]))) = Some room' /\
    passkey room' = passkey (mkRoom None [("s2", "bob"); ("s3", "carol")]) /\
    JsMap.get "s2" (clients room') = Some "bob".
Proof.
  apply (member_stays_until_it_leaves sample_uuid sample_uuid_truthy sample_uuid_injective
           bob_carol_world).
  - apply world_after_reachable.
  - vm_compute. reflexivity.
  - vm_compute. reflexivity.
  - repeat constructor; discriminate.
Defined.
